(** * Track (src/src/impl/track.cpp): a shallow embedding of the media
    track endpoint of libdatachannel and proofs of its specification.

    Bytes are [Z] values in [0, 255]; a C++ [size_t] is a 64-bit [Z] whose
    wrap-around is written out.  Exceptions are modelled by a state/error
    monad that keeps the state reached at the throw point, since C++ does
    not roll back side effects that happened before a [throw]. *)

From Stdlib Require Import ZArith Lia Bool List.
From stdpp Require Import base gmap strings.
Import ListNotations.
Open Scope Z_scope.

(* ------------------------------------------------------------------ *)
(** ** Messages *)

(** [Message::Type]: the kinds the track distinguishes.  [Binary] is a
    media (RTP, "Data") packet, [Control] an RTCP packet. *)
Inductive MessageType := Binary | Control.

#[global] Instance MessageType_eq_dec : EqDecision MessageType.
Proof. solve_decision. Defined.

(** [Message]: a byte buffer with its kind and its DSCP marking. *)
Record Message := mkMessage {
  mtype : MessageType;
  mbytes : list Z;
  dscp : Z
}.

Definition set_mtype (t : MessageType) (m : Message) : Message :=
  mkMessage t (mbytes m) (dscp m).
Definition set_dscp (d : Z) (m : Message) : Message :=
  mkMessage (mtype m) (mbytes m) d.
Definition set_mbytes (b : list Z) (m : Message) : Message :=
  mkMessage (mtype m) b (dscp m).

(** The amount function given to the receive queue in the constructor:
    [[](const message_ptr &m) { return m->size(); }]. *)
Definition message_size (m : Message) : nat := length (mbytes m).

(** [message_variant], the public form of a message: its bytes. *)
Definition message_variant := list Z.

(** Modelled from the spec: [to_variant] (message.cpp, not under src/)
    "converts the internal packet representation to the public message
    form".  Called on an lvalue it copies the message; called on
    [std::move( *message)] it moves the byte vector out, which leaves the
    moved-from [std::vector] empty.  The result is the variant together
    with the message left behind in the source object. *)
Definition to_variant_copy (m : Message) : message_variant * Message :=
  (mbytes m, m).
Definition to_variant_move (m : Message) : message_variant * Message :=
  (mbytes m, set_mbytes [] m).

(* ------------------------------------------------------------------ *)
(** ** Media description *)

Inductive Direction := SendOnly | RecvOnly | SendRecv | Inactive | Unknown.

#[global] Instance Direction_eq_dec : EqDecision Direction.
Proof. solve_decision. Defined.

(** Modelled from the spec: [Description::Media] (description.cpp, not
    under src/): a mid, a direction, a media type ("audio", "video") and
    an "extension-id table mapping a well-known extension URI to a small
    integer id". *)
Record Media := mkMedia {
  mid : string;
  direction : Direction;
  media_type : string;
  extMaps : gmap string Z
}.

Definition set_extMaps (t : gmap string Z) (d : Media) : Media :=
  mkMedia (mid d) (direction d) (media_type d) t.

(** Modelled from the spec: [findExtId(uri)], the id the table maps
    [uri] to, if any. *)
Definition findExtId (d : Media) (uri : string) : option Z := extMaps d !! uri.

(** An id is used when some URI of the table maps to it. *)
Definition ext_id_used (t : gmap string Z) (i : Z) : bool :=
  existsb (fun kv => Z.eqb (snd kv) i) (map_to_list t).

Fixpoint next_free (t : gmap string Z) (i : Z) (fuel : nat) : Z :=
  match fuel with
  | O => i
  | S f => if ext_id_used t i then next_free t (i + 1) f else i
  end.

(** Modelled from the spec: [nextExtId()], "allocate the next unused
    extension id, 1..14": the search starts at 1 and moves up past used
    ids. *)
Definition nextExtId (d : Media) : Z :=
  next_free (extMaps d) 1 (14 + size (extMaps d))%nat.

(** Modelled from the spec: [addExtMap({id, uri})], "add the mapping". *)
Definition addExtMap (d : Media) (id : Z) (uri : string) : Media :=
  set_extMaps (<[uri := id]> (extMaps d)) d.

(** The RFC 8843 MID header extension URI of [setDescription]. *)
Definition sdesMidExtUri : string := "urn:ietf:params:rtp-hdrext:sdes:mid".

(* ------------------------------------------------------------------ *)
(** ** The receive queue *)

(** Modelled from the spec: [Queue<message_ptr>] (queue.hpp, not under
    src/), the BoundedByteQueue of the spec: the pending packets, the
    "running accumulated-size counter" and the "fixed capacity limit".
    The queue holds [message_ptr]s: the queued messages are the objects
    the track's locals point to, so an update of [*message] through a
    pointer obtained from [peek] is an update of the queue's front. *)
Record Queue := mkQueue {
  qitems : list Message;
  qamount : nat;
  qlimit : nat
}.

Definition queue_empty (limit : nat) : Queue := mkQueue [] 0 limit.

(** [push(item)]: "if accumulatedSize + weight(item) > capacity, reject
    without mutating the queue and return false; otherwise append and
    increase the accumulated size". *)
Definition queue_push (m : Message) (q : Queue) : bool * Queue :=
  if Nat.ltb (qlimit q) (qamount q + message_size m) then (false, q)
  else (true, mkQueue (qitems q ++ [m]) (qamount q + message_size m) (qlimit q)).

(** [full()]: no room is left for a further byte. *)
Definition queue_full (q : Queue) : bool := Nat.leb (qlimit q) (qamount q).

(** [pop()]: removes the front item and decreases the accumulated size
    by its weight. *)
Definition queue_pop (q : Queue) : option Message * Queue :=
  match qitems q with
  | [] => (None, q)
  | m :: rest => (Some m, mkQueue rest (qamount q - message_size m) (qlimit q))
  end.

(** [peek()]: the front item, not removed. *)
Definition queue_peek (q : Queue) : option Message := head (qitems q).

(** Writing through the pointer to the front item. *)
Definition queue_set_front (m : Message) (q : Queue) : Queue :=
  match qitems q with
  | [] => q
  | _ :: rest => mkQueue (m :: rest) (qamount q) (qlimit q)
  end.

Definition queue_amount (q : Queue) : nat := qamount q.
Definition queue_size (q : Queue) : nat := length (qitems q).

(* ------------------------------------------------------------------ *)
(** ** Collaborators *)

(** Modelled from the spec: a [MediaHandler] (not under src/), "the
    handler may mutate the batch in place and invoke sendNowCallback(packet)
    to inject out-of-band sends".  Each chain returns the packets it sent
    through the callback and the resulting batch. *)
Record MediaHandler := mkMediaHandler {
  incomingChain : list Message -> list Message * list Message;
  outgoingChain : list Message -> list Message * list Message
}.

(** Modelled from the spec: the transport reached through
    [mDtlsSrtpTransport.lock()], absent when expired; present, it is its
    [sendMedia(packet) -> bool]. *)
Definition Transport := Message -> bool.

(** A registered message callback: none, the discarding lambda
    [[](message_variant) {}] of the constructor, or one set by the
    application (which sees every message passed to it). *)
Inductive Callback := CbUnset | CbDiscard | CbUser.

(** The events the track triggers ([triggerAvailable], [triggerClosed],
    [triggerOpen] of [Channel]). *)
Inductive Event := EvAvailable (n : nat) | EvClosed | EvOpen.

#[global] Instance Event_eq_dec : EqDecision Event.
Proof. solve_decision. Defined.

Inductive Error := ConfigurationMismatch | TrackClosed.

(* ------------------------------------------------------------------ *)
(** ** Track state *)

(** The fields of [Track] the operations read and write, plus the two
    [LogCounter]s, the log of triggered events, the log of packets handed
    to the transport and the log of messages the application's callback
    received. *)
Record Track := mkTrack {
  mMediaDescription : Media;
  mSdesMidExtId : option Z;
  mIsClosed : bool;
  mMediaHandler : option MediaHandler;
  mDtlsSrtpTransport : option Transport;
  mRecvQueue : Queue;
  messageCallback : Callback;
  events : list Event;
  sentLog : list Message;
  deliveredLog : list message_variant;
  COUNTER_MEDIA_BAD_DIRECTION : nat;
  COUNTER_QUEUE_FULL : nat
}.

Definition with_description (d : Media) (id : option Z) (t : Track) : Track :=
  mkTrack d id (mIsClosed t) (mMediaHandler t) (mDtlsSrtpTransport t)
    (mRecvQueue t) (messageCallback t) (events t) (sentLog t) (deliveredLog t)
    (COUNTER_MEDIA_BAD_DIRECTION t) (COUNTER_QUEUE_FULL t).
Definition with_closed (b : bool) (t : Track) : Track :=
  mkTrack (mMediaDescription t) (mSdesMidExtId t) b (mMediaHandler t)
    (mDtlsSrtpTransport t) (mRecvQueue t) (messageCallback t) (events t)
    (sentLog t) (deliveredLog t) (COUNTER_MEDIA_BAD_DIRECTION t)
    (COUNTER_QUEUE_FULL t).
Definition with_handler (h : option MediaHandler) (t : Track) : Track :=
  mkTrack (mMediaDescription t) (mSdesMidExtId t) (mIsClosed t) h
    (mDtlsSrtpTransport t) (mRecvQueue t) (messageCallback t) (events t)
    (sentLog t) (deliveredLog t) (COUNTER_MEDIA_BAD_DIRECTION t)
    (COUNTER_QUEUE_FULL t).
Definition with_transport (tr : option Transport) (t : Track) : Track :=
  mkTrack (mMediaDescription t) (mSdesMidExtId t) (mIsClosed t)
    (mMediaHandler t) tr (mRecvQueue t) (messageCallback t) (events t)
    (sentLog t) (deliveredLog t) (COUNTER_MEDIA_BAD_DIRECTION t)
    (COUNTER_QUEUE_FULL t).
Definition with_queue (q : Queue) (t : Track) : Track :=
  mkTrack (mMediaDescription t) (mSdesMidExtId t) (mIsClosed t)
    (mMediaHandler t) (mDtlsSrtpTransport t) q (messageCallback t) (events t)
    (sentLog t) (deliveredLog t) (COUNTER_MEDIA_BAD_DIRECTION t)
    (COUNTER_QUEUE_FULL t).
Definition with_callback (c : Callback) (t : Track) : Track :=
  mkTrack (mMediaDescription t) (mSdesMidExtId t) (mIsClosed t)
    (mMediaHandler t) (mDtlsSrtpTransport t) (mRecvQueue t) c (events t)
    (sentLog t) (deliveredLog t) (COUNTER_MEDIA_BAD_DIRECTION t)
    (COUNTER_QUEUE_FULL t).
Definition add_event (e : Event) (t : Track) : Track :=
  mkTrack (mMediaDescription t) (mSdesMidExtId t) (mIsClosed t)
    (mMediaHandler t) (mDtlsSrtpTransport t) (mRecvQueue t)
    (messageCallback t) (events t ++ [e]) (sentLog t) (deliveredLog t)
    (COUNTER_MEDIA_BAD_DIRECTION t) (COUNTER_QUEUE_FULL t).
Definition add_sent (m : Message) (t : Track) : Track :=
  mkTrack (mMediaDescription t) (mSdesMidExtId t) (mIsClosed t)
    (mMediaHandler t) (mDtlsSrtpTransport t) (mRecvQueue t)
    (messageCallback t) (events t) (sentLog t ++ [m]) (deliveredLog t)
    (COUNTER_MEDIA_BAD_DIRECTION t) (COUNTER_QUEUE_FULL t).
Definition add_delivered (v : message_variant) (t : Track) : Track :=
  mkTrack (mMediaDescription t) (mSdesMidExtId t) (mIsClosed t)
    (mMediaHandler t) (mDtlsSrtpTransport t) (mRecvQueue t)
    (messageCallback t) (events t) (sentLog t) (deliveredLog t ++ [v])
    (COUNTER_MEDIA_BAD_DIRECTION t) (COUNTER_QUEUE_FULL t).
Definition incr_bad_direction (t : Track) : Track :=
  mkTrack (mMediaDescription t) (mSdesMidExtId t) (mIsClosed t)
    (mMediaHandler t) (mDtlsSrtpTransport t) (mRecvQueue t)
    (messageCallback t) (events t) (sentLog t) (deliveredLog t)
    (S (COUNTER_MEDIA_BAD_DIRECTION t)) (COUNTER_QUEUE_FULL t).
Definition incr_queue_full (t : Track) : Track :=
  mkTrack (mMediaDescription t) (mSdesMidExtId t) (mIsClosed t)
    (mMediaHandler t) (mDtlsSrtpTransport t) (mRecvQueue t)
    (messageCallback t) (events t) (sentLog t) (deliveredLog t)
    (COUNTER_MEDIA_BAD_DIRECTION t) (S (COUNTER_QUEUE_FULL t)).

(* ------------------------------------------------------------------ *)
(** ** Exceptions and state: the monad of the operations *)

Inductive result (A : Type) :=
| Ok (a : A) (s : Track)
| Err (e : Error) (s : Track).
Arguments Ok {A} a s.
Arguments Err {A} e s.

Definition M (A : Type) := Track -> result A.

Definition ret {A} (a : A) : M A := fun s => Ok a s.
Definition throw {A} (e : Error) : M A := fun s => Err e s.
Definition bind {A B} (m : M A) (k : A -> M B) : M B :=
  fun s => match m s with Ok a s' => k a s' | Err e s' => Err e s' end.
Definition get : M Track := fun s => Ok s s.
Definition modify (f : Track -> Track) : M unit := fun s => Ok tt (f s).

Notation "'let!' x ':=' m 'in' k" := (bind m (fun x => k))
  (at level 200, x name, m at level 100, k at level 200).
Notation "m ;; k" := (bind m (fun _ => k)) (at level 100, right associativity).

(** The state a call leaves behind, whether it returned or threw. *)
Definition final_state {A} (r : result A) : Track :=
  match r with Ok _ s => s | Err _ s => s end.

(* ------------------------------------------------------------------ *)
(** ** Track operations *)

Section Operations.

(** Modelled from the spec: [IsRtcp] (rtp.cpp, not under src/), the test
    that a byte buffer "is structurally an RTCP packet".  The operations
    are stated for any such test. *)
Variable IsRtcp : list Z -> bool.

Definition is_send_only_or_inactive (d : Direction) : bool :=
  match d with SendOnly | Inactive => true | _ => false end.
Definition is_recv_only_or_inactive (d : Direction) : bool :=
  match d with RecvOnly | Inactive => true | _ => false end.

Definition is_control (m : Message) : bool :=
  match mtype m with Control => true | Binary => false end.

(** [Track::setDescription].  The notification [handler->media(...)]
    changes no state of the track. *)
Definition setDescription (desc : Media) : M unit :=
  let! t := get in
  if decide (mid desc = mid (mMediaDescription t)) then
    let '(id, desc') :=
      match findExtId desc sdesMidExtUri with
      | Some id => (id, desc)
      | None => let id := nextExtId desc in (id, addExtMap desc id sdesMidExtUri)
      end in
    modify (with_description desc' (Some id))
  else throw ConfigurationMismatch.

(** [Track::close]: [mIsClosed.exchange(true)], [triggerClosed()] on the
    transition, [setMediaHandler(nullptr)], [resetCallbacks()]. *)
Definition close : M unit :=
  let! t := get in
  (if mIsClosed t then ret tt
   else modify (fun t => add_event EvClosed (with_closed true t))) ;;
  modify (with_handler None) ;;
  modify (with_callback CbUnset).

(** [Track::receive]. *)
Definition receive : M (option message_variant) :=
  let! t := get in
  let '(next, q') := queue_pop (mRecvQueue t) in
  modify (with_queue q') ;;
  match next with
  | None => ret None
  | Some message =>
      if is_control message then ret (Some (fst (to_variant_copy message)))
      else ret (Some (fst (to_variant_move message)))
  end.

(** [Track::peek]: [message] is a copy of the queue's front pointer, so
    [to_variant(std::move( *message))] moves out of the queued object. *)
Definition peek : M (option message_variant) :=
  let! t := get in
  match queue_peek (mRecvQueue t) with
  | None => ret None
  | Some message =>
      if is_control message then ret (Some (fst (to_variant_copy message)))
      else
        let '(v, moved_from) := to_variant_move message in
        modify (with_queue (queue_set_front moved_from (mRecvQueue t))) ;;
        ret (Some v)
  end.

Definition availableAmount (t : Track) : nat := queue_amount (mRecvQueue t).

(** [Track::transportSend] (media support compiled in). *)
Definition transportSend (message : Message) : M bool :=
  let! t := get in
  match mDtlsSrtpTransport t with
  | None => throw TrackClosed
  | Some sendMedia =>
      let message :=
        set_dscp (if decide (media_type (mMediaDescription t) = "audio")
                  then 46 else 36) message in
      modify (add_sent message) ;;
      ret (sendMedia message)
  end.

(** The sends a handler chain makes through its [transportSend] callback. *)
Fixpoint sendNow (ms : list Message) : M unit :=
  match ms with
  | [] => ret tt
  | m :: rest => transportSend m ;; sendNow rest
  end.

(** The loop [for (auto &m : messages) ret = transportSend(std::move(m));]. *)
Fixpoint sendBatch (ms : list Message) (r : bool) : M bool :=
  match ms with
  | [] => ret r
  | m :: rest => let! r' := transportSend m in sendBatch rest r'
  end.

(** Modelled from the spec: [triggerAvailable(count)] of [Channel] (not
    under src/) "fires the available event with the queue's new item
    count". *)
Definition triggerAvailable (n : nat) : M unit := modify (add_event (EvAvailable n)).

(** The admission loop of [Track::incoming]. *)
Fixpoint admitBatch (messages : list Message) : M unit :=
  match messages with
  | [] => ret tt
  | m :: rest =>
      let! t := get in
      if queue_full (mRecvQueue t) then modify incr_queue_full
      else
        modify (with_queue (snd (queue_push m (mRecvQueue t)))) ;;
        let! t' := get in
        triggerAvailable (queue_size (mRecvQueue t')) ;;
        admitBatch rest
  end.

(** [Track::incoming]; [None] is the null [message_ptr]. *)
Definition incoming (message : option Message) : M unit :=
  match message with
  | None => ret tt
  | Some message =>
      let! t := get in
      let dir := direction (mMediaDescription t) in
      if is_send_only_or_inactive dir && negb (is_control message) then
        modify incr_bad_direction
      else
        let! messages :=
          match mMediaHandler t with
          | Some handler =>
              let '(side, batch) := incomingChain handler [message] in
              sendNow side ;; ret batch
          | None => ret [message]
          end in
        admitBatch messages
  end.

(** [Track::outgoing]. *)
Definition outgoing (message : Message) : M bool :=
  let! t := get in
  if mIsClosed t then throw TrackClosed
  else
    let handler := mMediaHandler t in
    let message :=
      match handler with
      | None => if IsRtcp (mbytes message) then set_mtype Control message else message
      | Some _ => message
      end in
    let dir := direction (mMediaDescription t) in
    if is_recv_only_or_inactive dir && negb (is_control message) then
      modify incr_bad_direction ;; ret false
    else
      match handler with
      | Some h =>
          let '(side, batch) := outgoingChain h [message] in
          sendNow side ;; sendBatch batch false
      | None => transportSend message
      end.

(** [Track::setMediaHandler]: the notification changes no track state. *)
Definition setMediaHandler (h : option MediaHandler) : M unit :=
  modify (with_handler h).

(** [Track::open]. *)
Definition open (transport : option Transport) : M unit :=
  modify (with_transport transport) ;;
  let! t := get in
  if mIsClosed t then ret tt else modify (add_event EvOpen).

(** Modelled from the spec: [onMessage(callback)] of [Channel] (not under
    src/), the application replacing the message callback. *)
Definition onMessage : M unit := modify (with_callback CbUser).

(** Modelled from the spec: delivery of a pending message to the message
    callback ([Channel], not under src/): with no callback registered the
    message stays queued; otherwise it is received and passed to the
    callback, and only an application callback makes it visible. *)
Definition deliverMessage : M unit :=
  let! t := get in
  match messageCallback t with
  | CbUnset => ret tt
  | cb =>
      let! next := receive in
      match next, cb with
      | Some v, CbUser => modify (add_delivered v)
      | _, _ => ret tt
      end
  end.

(** The track in the state its member initialisers leave it in:
    [init] is the initial value of [mMediaDescription] (track.hpp, not
    under src/) and [limit] is [RECV_QUEUE_LIMIT]. *)
Definition initial_track (init : Media) (limit : nat) : Track :=
  mkTrack init None false None None (queue_empty limit) CbUnset [] [] [] 0 0.

(** [Track::Track(pc, desc)]. *)
Definition Track_new (init : Media) (limit : nat) (desc : Media) : result unit :=
  (setDescription desc ;;
   let! t := get in
   if decide (direction (mMediaDescription t) = SendOnly)
   then modify (with_callback CbDiscard) else ret tt) (initial_track init limit).

(** The public operations, for statements about any sequence of calls. *)
Inductive Op :=
| OpIncoming (m : option Message)
| OpOutgoing (m : Message)
| OpClose
| OpSetDescription (d : Media)
| OpSetMediaHandler (h : option MediaHandler)
| OpOpen (tr : option Transport)
| OpReceive
| OpPeek
| OpDeliver
| OpOnMessage.

Definition run_op (o : Op) (t : Track) : Track :=
  match o with
  | OpIncoming m => final_state (incoming m t)
  | OpOutgoing m => final_state (outgoing m t)
  | OpClose => final_state (close t)
  | OpSetDescription d => final_state (setDescription d t)
  | OpSetMediaHandler h => final_state (setMediaHandler h t)
  | OpOpen tr => final_state (open tr t)
  | OpReceive => final_state (receive t)
  | OpPeek => final_state (peek t)
  | OpDeliver => final_state (deliverMessage t)
  | OpOnMessage => final_state (onMessage t)
  end.

Definition run_ops (os : list Op) (t : Track) : Track := fold_left (fun t o => run_op o t) os t.

End Operations.

(** [Track::description()]. *)
Definition description (t : Track) : Media := mMediaDescription t.

(** [Track::isOpen()] (media support compiled in): not closed and the
    transport still alive. *)
Definition isOpen (t : Track) : bool :=
  negb (mIsClosed t) && match mDtlsSrtpTransport t with Some _ => true | None => false end.

(** [Track::isClosed()]. *)
Definition isClosed (t : Track) : bool := mIsClosed t.

(** The DSCP value [transportSend] writes: 46 (EF) for audio, 36 (AF42)
    otherwise. *)
Definition dscp_for (t : Track) : Z :=
  if decide (media_type (mMediaDescription t) = "audio") then 46 else 36.

(* ------------------------------------------------------------------ *)
(** ** maxMessageSize *)

(** Modelled from the spec: the peer connection's configuration (not
    under src/), "mtu: optional<size>". *)
Record Configuration := mkConfiguration { config_mtu : option Z }.

(** [size_t] subtraction, modulo 2^64. *)
Definition size_t_sub (a b : Z) : Z := (a - b) mod 2 ^ 64.

(** [Track::maxMessageSize]; [pc] is [mPeerConnection.lock()] (the
    connection's configuration, or nothing when it is gone) and
    [DEFAULT_MTU] the constant of internals.hpp. *)
Definition maxMessageSize (DEFAULT_MTU : Z) (pc : option Configuration) : Z :=
  let mtu := match pc with Some c => config_mtu c | None => None end in
  let v := match mtu with Some m => m | None => DEFAULT_MTU end in
  size_t_sub (size_t_sub (size_t_sub v 12) 8) 40.

(* ------------------------------------------------------------------ *)
(** ** RTP header view and tagWithMid *)

(** Modelled from the spec: [sizeof(RtpHeader)], the RTP fixed header
    (12 bytes, the size [maxMessageSize] subtracts for it). *)
Definition sizeof_RtpHeader : nat := 12.

(** Header fields read from the first byte (RFC 3550): the extension bit
    and the CSRC count. *)
Definition rtp_extension (b : list Z) : bool :=
  match b with b0 :: _ => Z.testbit b0 4 | [] => false end.
Definition rtp_csrc_count (b : list Z) : Z :=
  match b with b0 :: _ => Z.land b0 15 | [] => 0 end.

(** [RtpHeader::getSize()]: the fixed header and the CSRC list. *)
Definition rtp_getSize (b : list Z) : nat := Z.to_nat (12 + 4 * rtp_csrc_count b).

(** The packet carries an extension block: the extension bit is set and
    the buffer holds the 4-byte extension header after the CSRC list. *)
Definition has_extension_block (b : list Z) : bool :=
  rtp_extension b && Nat.leb (rtp_getSize b + 4) (length b).

(** The profile-specific id of the extension block (big-endian 16 bits). *)
Definition ext_profile (b : list Z) : Z :=
  nth (rtp_getSize b) b 0 * 256 + nth (S (rtp_getSize b)) b 0.

Section Tagging.

Variable IsRtcp : list Z -> bool.

(** [Track::tagWithMid], returning the packet as the call leaves it.
    The tagging branch is entered only when [message->size() <
    sizeof(RtpHeader)]; there the [RtpHeader] view of the buffer reads
    header fields past its end ([getExtensionHeader()], [getSize()] and
    the insertion point [begin() + getSize()] all lie beyond the 12-byte
    header the buffer does not hold), which is undefined behaviour: the
    branch is [None]. *)
Definition tagWithMid (t : Track) (message : Message) : option Message :=
  if IsRtcp (mbytes message) then Some message
  else
    match mSdesMidExtId t with
    | None => Some message
    | Some _ =>
        if Nat.ltb (length (mbytes message)) sizeof_RtpHeader then None
        else Some message
    end.

End Tagging.

(** An RTCP test for concrete examples (RFC 5761, section 4): at least the
    8-byte RTCP header, and the second byte's low 7 bits in 64..95. *)
Definition IsRtcp_rfc5761 (b : list Z) : bool :=
  Nat.leb 8 (length b) &&
  (let pt := Z.land (nth 1 b 0) 127 in (64 <=? pt) && (pt <=? 95)).

(* ------------------------------------------------------------------ *)
(** ** Auxiliary definitions and sample values *)

(** The kind [outgoing]'s direction check sees: RTCP buffers are
    reclassified as Control when no handler is attached. *)
Definition outgoing_kind (IsRtcp : list Z -> bool) (t : Track) (m : Message) : MessageType :=
  match mMediaHandler t with
  | None => if IsRtcp (mbytes m) then Control else mtype m
  | Some _ => mtype m
  end.

(** [close()] called [n] times in a row. *)
Definition close_n (n : nat) (t : Track) : Track :=
  Nat.iter n (fun s => final_state (close s)) t.

(** How many times the closed event has fired. *)
Definition closed_events (t : Track) : nat := count_occ Event_eq_dec (events t) EvClosed.

Definition media_audio (m : string) (d : Direction) : Media := mkMedia m d "audio" ∅.

Definition rtp_packet : list Z := [128; 96; 0; 1; 0; 0; 0; 0; 0; 0; 0; 42].
Definition data_msg : Message := mkMessage Binary rtp_packet 0.
Definition control_msg : Message := mkMessage Control [128; 200; 0; 1; 0; 0; 0; 42] 0.

Definition track_sendonly : Track := initial_track (media_audio "0" SendOnly) 1500.
Definition track_recvonly : Track := initial_track (media_audio "0" RecvOnly) 1500.
Definition track_sendrecv : Track := initial_track (media_audio "0" SendRecv) 1500.

(** The queue after pushing [ms] one after the other. *)
Fixpoint push_all (q : Queue) (ms : list Message) : Queue :=
  match ms with
  | [] => q
  | m :: rest => push_all (snd (queue_push m q)) rest
  end.

(** The available events fired while pushing [ms]: after each push, the
    queue's item count. *)
Fixpoint pushed_events (q : Queue) (ms : list Message) : list Event :=
  match ms with
  | [] => []
  | m :: rest =>
      let q' := snd (queue_push m q) in EvAvailable (queue_size q') :: pushed_events q' rest
  end.

Definition queue_one : Queue := mkQueue [mkMessage Binary [1; 2; 3] 0] 3 1500.
Definition track_one : Track := with_queue queue_one track_sendrecv.

Definition big_msg : Message := mkMessage Binary [1; 2; 3; 4] 0.

(** What [setDescription(desc)] leaves for the MID extension: the track's
    [mSdesMidExtId] is the id the stored description's table maps the MID
    URI to; the stored description is [desc] (same mid and direction);
    either [desc] already mapped the URI to that id and the table is
    [desc]'s, or [desc] did not map it and the table is [desc]'s plus the
    URI mapped to the id, which is the lowest unused id of 1..14 whenever
    one is unused. *)
Definition sdes_mid_ext_ok (desc : Media) (s : Track) : Prop :=
  exists id,
    mSdesMidExtId s = Some id /\
    extMaps (description s) !! sdesMidExtUri = Some id /\
    mid (description s) = mid desc /\
    direction (description s) = direction desc /\
    ((extMaps desc !! sdesMidExtUri = Some id /\ extMaps (description s) = extMaps desc) \/
     (extMaps desc !! sdesMidExtUri = None /\
      extMaps (description s) = <[sdesMidExtUri := id]> (extMaps desc) /\
      ((exists j, 1 <= j <= 14 /\ ext_id_used (extMaps desc) j = false) ->
       1 <= id <= 14 /\ ext_id_used (extMaps desc) id = false /\
       (forall j, 1 <= j < id -> ext_id_used (extMaps desc) j = true)))).

Definition media_with_ext : Media :=
  mkMedia "0" SendRecv "video" (<["urn:ietf:params:rtp-hdrext:sdes:mid" := 3]> ∅).
Definition media_ext_used : Media :=
  mkMedia "0" SendRecv "video" (<["urn:ietf:params:rtp-hdrext:toffset" := 1]> ∅).

(** The mtu [maxMessageSize] starts from. *)
Definition mtu_used (DEFAULT_MTU : Z) (pc : option Configuration) : Z :=
  match match pc with Some c => config_mtu c | None => None end with
  | Some m => m
  | None => DEFAULT_MTU
  end.

(** An RTP packet with an extension block of profile 0x1000 (RFC 8285's
    two-byte header) holding one element. *)
Definition two_byte_ext_msg : Message :=
  mkMessage Binary [144; 96; 0; 1; 0; 0; 0; 0; 0; 0; 0; 42; 16; 0; 0; 1; 2; 1; 7; 0] 0.

(** The track after [Track(pc, desc)] with mid "0": MID extension id 1. *)
Definition tagged_track : Track :=
  final_state (Track_new (media_audio "0" SendRecv) 1500 (media_audio "0" SendRecv)).

(** An RTP packet carrying a 0xBEDE block of one word with one element
    (id 2, one byte of value, two bytes of padding). *)
Definition bede_msg : Message :=
  mkMessage Binary [144; 96; 0; 1; 0; 0; 0; 0; 0; 0; 0; 42; 190; 222; 0; 1; 32; 7; 0; 0] 0.

(** No application callback is registered and none has received a
    message. *)
Definition no_app_delivery (t : Track) : Prop :=
  messageCallback t <> CbUser /\ deliveredLog t = [].

(** A handler that sends a copy of each packet out of band and then
    passes the batch unchanged; its incoming chain
    passes the batch unchanged. *)
Definition echo_handler : MediaHandler :=
  mkMediaHandler (fun ms => ([], ms)) (fun ms => (ms, ms)).

(** A handler whose incoming chain sends each packet back out of band and
    replaces the batch by a single Control packet. *)
Definition relay_handler : MediaHandler :=
  mkMediaHandler (fun ms => (ms, [control_msg])) (fun ms => (ms, ms)).

(** A handler whose outgoing chain consumes every packet. *)
Definition sink_handler : MediaHandler :=
  mkMediaHandler (fun ms => ([], ms)) (fun _ => ([], [])).

(** The track after [transportSend] handed the packets [ms] to the
    transport, one after the other. *)
Definition add_sent_all (ms : list Message) (t : Track) : Track :=
  fold_left (fun s m => add_sent m s) ms t.

(* ------------------------------------------------------------------ *)
(** ** Frame lemmas: what each operation leaves unchanged *)

Definition preserves {A} (P : Track -> Prop) (m : M A) : Prop :=
  forall t, P t -> P (final_state (m t)).

Lemma preserves_ret {A} P (a : A) : preserves P (ret a).
Proof. intros t H; exact H. Qed.

Lemma preserves_throw {A} P e : preserves (A:=A) P (throw e).
Proof. intros t H; exact H. Qed.

Lemma preserves_bind {A B} P (m : M A) (k : A -> M B) :
  preserves P m -> (forall a, preserves P (k a)) -> preserves P (bind m k).
Proof.
  intros Hm Hk t H. unfold bind.
  specialize (Hm t H). destruct (m t) as [a s|e s]; simpl in *; auto.
  apply Hk; exact Hm.
Qed.

Lemma preserves_get {B} P (k : Track -> M B) :
  (forall x, P x -> preserves P (k x)) -> preserves P (bind get k).
Proof. intros Hk t H. apply (Hk t H t H). Qed.

Lemma preserves_modify P f : (forall t, P t -> P (f t)) -> preserves P (modify f).
Proof. intros Hf t H. apply Hf, H. Qed.

Create HintDb frame.
#[local] Hint Resolve preserves_ret preserves_throw preserves_get preserves_bind
  preserves_modify : frame.

(** Decompose an operation into its steps; the side conditions on the
    state updates are left to [simpl]. *)
Ltac frame_step :=
  match goal with
  | |- preserves _ (bind get _) => apply preserves_get; intros ?x ?Hx
  | |- preserves _ (bind _ _) => apply preserves_bind; [|intro]
  | |- preserves _ (ret _) => apply preserves_ret
  | |- preserves _ (throw _) => apply preserves_throw
  | |- preserves _ (modify _) => apply preserves_modify; intros ?t ?Ht
  | |- preserves _ (if ?b then _ else _) => destruct b eqn:?
  | |- preserves _ (match ?x with _ => _ end) => destruct x eqn:?
  | |- preserves _ (let '(_, _) := ?x in _) => destruct x eqn:?
  end.
Ltac frame := repeat (frame_step; simpl in *; auto; try congruence).

Section Frame.

Variable P : Track -> Prop.

Lemma transportSend_preserves m :
  (forall m t, P t -> P (add_sent m t)) -> preserves P (transportSend m).
Proof. intros Hs. unfold transportSend. frame. Qed.

Lemma sendNow_preserves ms :
  (forall m t, P t -> P (add_sent m t)) -> preserves P (sendNow ms).
Proof.
  intros Hs. induction ms as [|m ms IH]; simpl.
  - apply preserves_ret.
  - apply preserves_bind; [apply transportSend_preserves, Hs|intros; exact IH].
Qed.

Lemma sendBatch_preserves ms r :
  (forall m t, P t -> P (add_sent m t)) -> preserves P (sendBatch ms r).
Proof.
  intros Hs. revert r. induction ms as [|m ms IH]; intros r; simpl.
  - apply preserves_ret.
  - apply preserves_bind; [apply transportSend_preserves, Hs|intros; apply IH].
Qed.

Lemma admitBatch_preserves ms :
  (forall t, P t -> P (incr_queue_full t)) ->
  (forall q t, P t -> P (with_queue q t)) ->
  (forall n t, P t -> P (add_event (EvAvailable n) t)) ->
  preserves P (admitBatch ms).
Proof.
  intros Hf Hq He. induction ms as [|m ms IH]; simpl.
  - apply preserves_ret.
  - unfold triggerAvailable. frame.
Qed.

End Frame.

(** Every setter keeps a closed track closed. *)
Lemma run_op_keeps_closed IsRtcp o t :
  mIsClosed t = true -> mIsClosed (run_op IsRtcp o t) = true.
Proof.
  set (P := fun t : Track => mIsClosed t = true).
  assert (Hs : forall m t, P t -> P (add_sent m t)) by (unfold P; auto).
  assert (Hf : forall t, P t -> P (incr_queue_full t)) by (unfold P; auto).
  assert (Hq : forall q t, P t -> P (with_queue q t)) by (unfold P; auto).
  assert (He : forall n t, P t -> P (add_event (EvAvailable n) t)) by (unfold P; auto).
  change (P t -> P (run_op IsRtcp o t)).
  destruct o; simpl.
  - revert t. change (preserves P (incoming m)). unfold incoming. frame.
    all: first [apply sendNow_preserves, Hs | apply admitBatch_preserves; auto].
  - revert t. change (preserves P (outgoing IsRtcp m)). unfold outgoing. frame.
    all: first [apply sendNow_preserves, Hs | apply sendBatch_preserves, Hs
               | apply transportSend_preserves, Hs].
  - revert t. change (preserves P close). unfold close. frame.
  - revert t. change (preserves P (setDescription d)). unfold setDescription. frame.
  - revert t. change (preserves P (setMediaHandler h)). unfold setMediaHandler. frame.
  - revert t. change (preserves P (open tr)). unfold open. frame.
  - revert t. change (preserves P receive). unfold receive. frame.
  - revert t. change (preserves P peek). unfold peek. frame.
  - revert t. change (preserves P deliverMessage). unfold deliverMessage, receive. frame.
  - revert t. change (preserves P onMessage). unfold onMessage. frame.
Qed.

(** The bad-direction counter changes only at the direction checks. *)
Lemma incoming_gate_passed_counter t msg :
  is_send_only_or_inactive (direction (mMediaDescription t)) && negb (is_control msg) = false ->
  COUNTER_MEDIA_BAD_DIRECTION (final_state (incoming (Some msg) t)) =
  COUNTER_MEDIA_BAD_DIRECTION t.
Proof.
  intros Hg.
  set (c := COUNTER_MEDIA_BAD_DIRECTION t).
  set (P := fun s : Track => COUNTER_MEDIA_BAD_DIRECTION s = c).
  change (P (final_state (incoming (Some msg) t))).
  assert (Ht : P t) by reflexivity.
  unfold incoming, bind at 1, get. rewrite Hg.
  match goal with |- P (final_state (?m t)) =>
    assert (Hp : preserves P m); [|exact (Hp t Ht)] end.
  destruct (mMediaHandler t) as [h|].
  - destruct (incomingChain h [msg]) as [side batch].
    apply preserves_bind; [apply preserves_bind|intros; apply admitBatch_preserves];
      try (intros; apply preserves_ret); try apply sendNow_preserves;
      unfold P; simpl; auto.
  - apply preserves_bind; [apply preserves_ret|intros; apply admitBatch_preserves];
      unfold P; simpl; auto.
Qed.

Lemma outgoing_gate_passed_counter IsRtcp t msg :
  is_recv_only_or_inactive (direction (mMediaDescription t)) &&
    negb (match outgoing_kind IsRtcp t msg with Control => true | Binary => false end) = false ->
  COUNTER_MEDIA_BAD_DIRECTION (final_state (outgoing IsRtcp msg t)) =
  COUNTER_MEDIA_BAD_DIRECTION t.
Proof.
  intros Hg.
  set (c := COUNTER_MEDIA_BAD_DIRECTION t).
  set (P := fun s : Track => COUNTER_MEDIA_BAD_DIRECTION s = c).
  change (P (final_state (outgoing IsRtcp msg t))).
  assert (Ht : P t) by reflexivity.
  unfold outgoing, bind at 1, get.
  destruct (mIsClosed t); [exact Ht|].
  match goal with |- P (final_state (?m t)) =>
    assert (Hp : preserves P m); [|exact (Hp t Ht)] end.
  unfold outgoing_kind in Hg.
  destruct (mMediaHandler t) as [h|].
  - unfold is_control. rewrite Hg.
    destruct (outgoingChain h [msg]) as [side batch].
    apply preserves_bind; [apply sendNow_preserves|intros; apply sendBatch_preserves];
      unfold P; simpl; auto.
  - destruct (IsRtcp (mbytes msg)); unfold is_control; simpl in *; rewrite Hg;
      apply transportSend_preserves; unfold P; simpl; auto.
Qed.

Lemma run_ops_keeps_closed IsRtcp ops t :
  mIsClosed t = true -> mIsClosed (run_ops IsRtcp ops t) = true.
Proof.
  unfold run_ops. revert t. induction ops as [|o ops IH]; intros t H; simpl.
  - exact H.
  - apply IH, run_op_keeps_closed, H.
Qed.

Lemma close_open_track t :
  mIsClosed t = false ->
  close t = Ok tt (with_callback CbUnset (with_handler None (add_event EvClosed (with_closed true t)))).
Proof. intros H. unfold close, bind, get, modify. rewrite H. reflexivity. Qed.

Lemma close_closed_track t :
  mIsClosed t = true ->
  close t = Ok tt (with_callback CbUnset (with_handler None t)).
Proof. intros H. unfold close, bind, get, modify, ret. rewrite H. reflexivity. Qed.

Lemma close_n_open t n :
  mIsClosed t = false -> (1 <= n)%nat ->
  close_n n t = with_callback CbUnset (with_handler None (add_event EvClosed (with_closed true t))).
Proof.
  intros H Hn. induction n as [|n IH]; [lia|].
  destruct n as [|n].
  - simpl. rewrite close_open_track by exact H. reflexivity.
  - change (close_n (S (S n)) t) with (final_state (close (close_n (S n) t))).
    rewrite IH by lia.
    rewrite close_closed_track by reflexivity. destruct t; reflexivity.
Qed.

(* ------------------------------------------------------------------ *)
(** ** Examples *)

Example rtp_packet_not_rtcp : IsRtcp_rfc5761 rtp_packet = false.
Proof. reflexivity. Qed.
Example control_msg_rtcp : IsRtcp_rfc5761 (mbytes control_msg) = true.
Proof. reflexivity. Qed.

(* ------------------------------------------------------------------ *)
(** ** Claims *)

(** C3: direction gating.  [incoming] drops a Data packet (one more
    bad-direction count, every other part of the track, the queue
    included, unchanged) exactly when the direction is SendOnly or
    Inactive; on an open track, [outgoing] drops a packet the gate sees as
    Data (its type, or Control for an RTCP buffer when no handler is
    attached) and returns false exactly when the direction is RecvOnly or
    Inactive; a Control packet is never dropped by either check. *)
Theorem direction_gate (IsRtcp : list Z -> bool) (t : Track) (msg : Message) :
  (mtype msg = Binary ->
   (incoming (Some msg) t = Ok tt (incr_bad_direction t) <->
    is_send_only_or_inactive (direction (description t)) = true)) /\
  (mtype msg = Control ->
   COUNTER_MEDIA_BAD_DIRECTION (final_state (incoming (Some msg) t)) =
   COUNTER_MEDIA_BAD_DIRECTION t) /\
  (mIsClosed t = false -> outgoing_kind IsRtcp t msg = Binary ->
   (outgoing IsRtcp msg t = Ok false (incr_bad_direction t) <->
    is_recv_only_or_inactive (direction (description t)) = true)) /\
  (outgoing_kind IsRtcp t msg = Control ->
   COUNTER_MEDIA_BAD_DIRECTION (final_state (outgoing IsRtcp msg t)) =
   COUNTER_MEDIA_BAD_DIRECTION t).
Proof.
  unfold description.
  split; [intros Hb; split; [intros Hi|intros Hd]|].
  3: split; [intros Hc|].
  4: split; [intros Hopen Hk; split; [intros Ho|intros Hd]|intros Hk].
  - destruct (is_send_only_or_inactive (direction (mMediaDescription t))) eqn:Hd;
      [reflexivity|].
    pose proof (incoming_gate_passed_counter t msg) as Hc.
    rewrite Hd in Hc. specialize (Hc eq_refl). rewrite Hi in Hc.
    simpl in Hc. lia.
  - unfold incoming, bind, get. unfold is_control. rewrite Hb, Hd.
    reflexivity.
  - apply incoming_gate_passed_counter.
    unfold is_control. rewrite Hc. apply andb_false_r.
  - destruct (is_recv_only_or_inactive (direction (mMediaDescription t))) eqn:Hd;
      [reflexivity|].
    pose proof (outgoing_gate_passed_counter IsRtcp t msg) as Hc.
    rewrite Hd in Hc. specialize (Hc eq_refl). rewrite Ho in Hc.
    simpl in Hc. lia.
  - unfold outgoing, bind, get, modify, ret. rewrite Hopen.
    unfold outgoing_kind in Hk. rewrite Hd.
    destruct (mMediaHandler t); [|destruct (IsRtcp (mbytes msg))];
      try discriminate; unfold is_control; simpl; rewrite Hk; reflexivity.
  - apply outgoing_gate_passed_counter. rewrite Hk. apply andb_false_r.
Qed.

Lemma direction_gate_witness :
  (mtype data_msg = Binary /\
   incoming (Some data_msg) track_sendonly = Ok tt (incr_bad_direction track_sendonly)) /\
  (mIsClosed track_recvonly = false /\
   outgoing_kind IsRtcp_rfc5761 track_recvonly data_msg = Binary /\
   outgoing IsRtcp_rfc5761 data_msg track_recvonly = Ok false (incr_bad_direction track_recvonly)) /\
  COUNTER_MEDIA_BAD_DIRECTION (final_state (incoming (Some control_msg) track_sendonly)) =
  COUNTER_MEDIA_BAD_DIRECTION track_sendonly /\
  COUNTER_MEDIA_BAD_DIRECTION (final_state (outgoing IsRtcp_rfc5761 control_msg track_recvonly)) =
  COUNTER_MEDIA_BAD_DIRECTION track_recvonly.
Proof.
  split; [|split; [|split]].
  - split; [reflexivity|].
    apply (proj2 (proj1 (direction_gate IsRtcp_rfc5761 track_sendonly data_msg) eq_refl)).
    reflexivity.
  - split; [reflexivity|]. split; [reflexivity|].
    apply (proj2 (proj1 (proj2 (proj2 (direction_gate IsRtcp_rfc5761 track_recvonly data_msg)))
                    eq_refl eq_refl)).
    reflexivity.
  - apply (proj1 (proj2 (direction_gate IsRtcp_rfc5761 track_sendonly control_msg)) eq_refl).
  - apply (proj2 (proj2 (proj2 (direction_gate IsRtcp_rfc5761 track_recvonly control_msg))) eq_refl).
Defined.

(** C4: [close()] is idempotent.  From an open track, [n >= 1] calls fire
    the closed event exactly once; a further call leaves the track as it
    is; and whatever operations follow, [outgoing] then fails with
    [TrackClosed]. *)
Theorem close_idempotent (IsRtcp : list Z -> bool) (t : Track) (n : nat) :
  mIsClosed t = false -> (1 <= n)%nat ->
  closed_events (close_n n t) = S (closed_events t) /\
  close (close_n n t) = Ok tt (close_n n t) /\
  (forall (ops : list Op) (msg : Message),
     outgoing IsRtcp msg (run_ops IsRtcp ops (close_n n t)) =
     Err TrackClosed (run_ops IsRtcp ops (close_n n t))).
Proof.
  intros Hopen Hn. rewrite close_n_open by assumption.
  split; [|split].
  - unfold closed_events. destruct t; simpl. rewrite count_occ_app. simpl.
    destruct (Event_eq_dec EvClosed EvClosed); [lia|congruence].
  - rewrite close_closed_track by reflexivity. destruct t; reflexivity.
  - intros ops msg.
    assert (Hc : mIsClosed (run_ops IsRtcp ops
                   (with_callback CbUnset (with_handler None
                     (add_event EvClosed (with_closed true t))))) = true)
      by (apply run_ops_keeps_closed; reflexivity).
    unfold outgoing, bind, get. rewrite Hc. reflexivity.
Qed.

Lemma close_idempotent_witness :
  mIsClosed (track_sendrecv) = false /\ (1 <= 3)%nat /\
  closed_events (close_n 3 (track_sendrecv)) = 1%nat.
Proof.
  split; [reflexivity|]. split; [lia|].
  apply (proj1 (close_idempotent IsRtcp_rfc5761 (track_sendrecv) 3
                  eq_refl ltac:(lia))).
Defined.

(** C5: a description whose mid differs from the track's fails with
    [ConfigurationMismatch] and leaves the track, hence the description
    [description()] returns, as it was. *)
Theorem setDescription_mid_mismatch (t : Track) (desc : Media) :
  mid desc <> mid (description t) ->
  setDescription desc t = Err ConfigurationMismatch t /\
  description (final_state (setDescription desc t)) = description t.
Proof.
  intros H. unfold setDescription, bind, get, throw.
  destruct (decide (mid desc = mid (mMediaDescription t))) as [E|E];
    [contradiction|split; reflexivity].
Qed.

Lemma setDescription_mid_mismatch_witness :
  mid (media_audio "1" SendRecv) <> mid (description (track_recvonly)) /\
  setDescription (media_audio "1" SendRecv) (track_recvonly) =
  Err ConfigurationMismatch (track_recvonly).
Proof.
  assert (H : mid (media_audio "1" SendRecv) <>
              mid (description (track_recvonly)))
    by (simpl; discriminate).
  split; [exact H|].
  apply (proj1 (setDescription_mid_mismatch _ _ H)).
Defined.

Lemma admitBatch_characterisation (ms : list Message) (t : Track) :
  exists k s,
    (k <= length ms)%nat /\
    (forall i, (i < k)%nat -> queue_full (push_all (mRecvQueue t) (firstn i ms)) = false) /\
    ((k < length ms)%nat -> queue_full (push_all (mRecvQueue t) (firstn k ms)) = true) /\
    admitBatch ms t = Ok tt s /\
    mRecvQueue s = push_all (mRecvQueue t) (firstn k ms) /\
    events s = events t ++ pushed_events (mRecvQueue t) (firstn k ms) /\
    COUNTER_QUEUE_FULL s = (COUNTER_QUEUE_FULL t + if Nat.ltb k (length ms) then 1 else 0)%nat /\
    COUNTER_MEDIA_BAD_DIRECTION s = COUNTER_MEDIA_BAD_DIRECTION t /\
    mMediaDescription s = mMediaDescription t /\
    sentLog s = sentLog t.
Proof.
  revert t. induction ms as [|m ms IH]; intros t.
  - exists O, t. simpl. rewrite app_nil_r, Nat.add_0_r.
    repeat split; auto; intros; lia.
  - simpl admitBatch. unfold bind at 1, get.
    destruct (queue_full (mRecvQueue t)) eqn:Hf.
    + exists O, (incr_queue_full t). simpl. rewrite app_nil_r.
      repeat split; auto; intros; lia.
    + set (t1 := add_event (EvAvailable (queue_size (snd (queue_push m (mRecvQueue t)))))
                   (with_queue (snd (queue_push m (mRecvQueue t))) t)).
      destruct (IH t1) as (k & s & Hk & Hlt & Hge & Hrun & Hq & He & Hc & Hb & Hd & Hs).
      exists (S k), s. simpl length.
      split; [lia|]. split; [|split; [|split]].
      * intros [|i] Hi; simpl; [exact Hf|]. apply (Hlt i); lia.
      * intros Hi. apply Hge. lia.
      * exact Hrun.
      * simpl firstn. simpl push_all. simpl pushed_events.
        rewrite Hq, He, Hc, Hb, Hd, Hs. unfold t1. simpl.
        rewrite <- app_assoc. simpl.
        repeat split; auto.
Qed.

(** C2: [peek()] keeps the queue's [amount()] and [size()],
    but for a Data packet it moves the bytes out of the queued message
    (the local [message_ptr] aliases the queue's front), so the next
    [receive()] returns an empty buffer instead of what [peek()] returned.
    On a queue holding the Data packet [1; 2; 3]: [peek()] returns
    [1; 2; 3] and [receive()] then returns []. *)
Theorem peek_moves_front_data :
  (forall t : Track,
     queue_amount (mRecvQueue (final_state (peek t))) = queue_amount (mRecvQueue t) /\
     queue_size (mRecvQueue (final_state (peek t))) = queue_size (mRecvQueue t)) /\
  peek track_one =
    Ok (Some [1; 2; 3]) (with_queue (mkQueue [mkMessage Binary [] 0] 3 1500) track_sendrecv) /\
  receive (with_queue (mkQueue [mkMessage Binary [] 0] 3 1500) track_sendrecv) =
    Ok (Some []) (with_queue (mkQueue [] 3 1500) track_sendrecv).
Proof.
  split; [|split; reflexivity].
  intros t. unfold peek, bind, get.
  destruct (queue_peek (mRecvQueue t)) as [m|] eqn:Hp; [|split; reflexivity].
  destruct (is_control m); [split; reflexivity|].
  simpl. unfold queue_set_front, queue_peek in *.
  destruct (qitems (mRecvQueue t)) as [|x rest] eqn:Hi; [discriminate|].
  simpl. unfold queue_size. rewrite Hi. split; reflexivity.
Qed.

(** C6: [incoming]'s admission loop.  It checks [full()] before each
    push: the packets before the first check that finds the queue full are
    pushed, each firing the available event with the queue's new item
    count; at that first full check the full-queue counter goes up by one
    and no later packet is tried.  With an empty queue whose capacity is
    the first packet's weight, a batch of two or more packets admits the
    first (available event with count 1), drops the second and tries no
    further packet. *)
Theorem incoming_batch_admission :
  (forall (ms : list Message) (t : Track),
   exists k s,
    (k <= length ms)%nat /\
    (forall i, (i < k)%nat -> queue_full (push_all (mRecvQueue t) (firstn i ms)) = false) /\
    ((k < length ms)%nat -> queue_full (push_all (mRecvQueue t) (firstn k ms)) = true) /\
    admitBatch ms t = Ok tt s /\
    mRecvQueue s = push_all (mRecvQueue t) (firstn k ms) /\
    events s = events t ++ pushed_events (mRecvQueue t) (firstn k ms) /\
    COUNTER_QUEUE_FULL s = (COUNTER_QUEUE_FULL t + if Nat.ltb k (length ms) then 1 else 0)%nat /\
    COUNTER_MEDIA_BAD_DIRECTION s = COUNTER_MEDIA_BAD_DIRECTION t /\
    mMediaDescription s = mMediaDescription t /\
    sentLog s = sentLog t) /\
  (forall (t : Track) (m1 m2 : Message) (rest : list Message),
   (0 < message_size m1)%nat ->
   mRecvQueue t = queue_empty (message_size m1) ->
   admitBatch (m1 :: m2 :: rest) t =
   Ok tt (incr_queue_full (add_event (EvAvailable 1)
            (with_queue (mkQueue [m1] (message_size m1) (message_size m1)) t)))).
Proof.
  split; [exact admitBatch_characterisation|].
  intros t m1 m2 rest Hw Hq.
  simpl admitBatch. unfold bind, get, modify, triggerAvailable. rewrite Hq.
  unfold queue_full, queue_push, queue_empty. simpl qlimit. simpl qamount.
  destruct (Nat.leb (message_size m1) 0) eqn:E1; [apply Nat.leb_le in E1; lia|].
  rewrite Nat.ltb_irrefl. simpl. rewrite Nat.leb_refl, E1. reflexivity.
Qed.

Lemma incoming_batch_admission_witness :
  (0 < message_size big_msg)%nat /\
  mRecvQueue (with_queue (queue_empty 4) track_sendrecv) = queue_empty (message_size big_msg) /\
  admitBatch [big_msg; big_msg; big_msg] (with_queue (queue_empty 4) track_sendrecv) =
  Ok tt (incr_queue_full (add_event (EvAvailable 1)
           (with_queue (mkQueue [big_msg] 4 4) (with_queue (queue_empty 4) track_sendrecv)))).
Proof.
  assert (Hw : (0 < message_size big_msg)%nat) by (cbv [message_size big_msg mbytes length]; lia).
  split; [exact Hw|]. split; [reflexivity|].
  apply (proj2 incoming_batch_admission); [exact Hw|reflexivity].
Defined.

(* ------------------------------------------------------------------ *)
(** ** The MID extension mapping *)

Lemma next_free_spec (tb : gmap string Z) (fuel : nat) (i : Z) :
  i <= next_free tb i fuel /\
  (forall j, i <= j < next_free tb i fuel -> ext_id_used tb j = true) /\
  (ext_id_used tb (next_free tb i fuel) = false \/ next_free tb i fuel = i + Z.of_nat fuel).
Proof.
  revert i. induction fuel as [|f IH]; intros i; simpl.
  - split; [lia|]. split; [intros; lia|]. right; lia.
  - destruct (ext_id_used tb i) eqn:Hu.
    + destruct (IH (i + 1)) as (H1 & H2 & H3).
      split; [lia|]. split.
      * intros j Hj. destruct (Z.eq_dec j i) as [->|Hne]; [exact Hu|]. apply H2; lia.
      * destruct H3 as [H3|H3]; [left; exact H3|right; lia].
    + split; [lia|]. split; [intros; lia|]. left; exact Hu.
Qed.

(** [nextExtId] allocates the lowest id of 1..14 the table does not use,
    when there is one. *)
Lemma nextExtId_lowest (d : Media) :
  (exists j, 1 <= j <= 14 /\ ext_id_used (extMaps d) j = false) ->
  1 <= nextExtId d <= 14 /\
  ext_id_used (extMaps d) (nextExtId d) = false /\
  (forall j, 1 <= j < nextExtId d -> ext_id_used (extMaps d) j = true).
Proof.
  intros (j & Hj & Hu). unfold nextExtId.
  destruct (next_free_spec (extMaps d) (14 + size (extMaps d)) 1) as (H1 & H2 & H3).
  set (r := next_free (extMaps d) 1 (14 + size (extMaps d))) in *.
  assert (Hr : r <= j).
  { destruct (Z_le_gt_dec r j) as [Hle|Hgt]; [exact Hle|].
    rewrite (H2 j) in Hu by lia. discriminate. }
  destruct H3 as [H3|H3]; [|rewrite Nat2Z.inj_add in H3; lia].
  split; [lia|]. split; [exact H3|exact H2].
Qed.

Lemma setDescription_ok (t : Track) (desc : Media) (s' : Track) :
  setDescription desc t = Ok tt s' -> sdes_mid_ext_ok desc s'.
Proof.
  unfold setDescription, bind, get, throw, modify.
  destruct (decide (mid desc = mid (mMediaDescription t))) as [E|E]; [|discriminate].
  unfold findExtId.
  destruct (extMaps desc !! sdesMidExtUri) as [id|] eqn:Hf; intros H; injection H as <-.
  - exists id. simpl. repeat split; auto.
  - exists (nextExtId desc). simpl. split; [reflexivity|].
    split; [apply lookup_insert_eq|]. split; [reflexivity|]. split; [reflexivity|].
    right. split; [exact Hf|]. split; [reflexivity|].
    apply nextExtId_lowest.
Qed.

Lemma Track_new_runs_setDescription (init : Media) (limit : nat) (desc : Media) (s : Track) :
  Track_new init limit desc = Ok tt s ->
  exists s1, setDescription desc (initial_track init limit) = Ok tt s1 /\
             (s = s1 \/ s = with_callback CbDiscard s1).
Proof.
  unfold Track_new, bind at 1.
  destruct (setDescription desc (initial_track init limit)) as [[] s1|e s1]; [|discriminate].
  intros H. exists s1. split; [reflexivity|].
  unfold bind, get, modify, ret in H.
  destruct (decide (direction (mMediaDescription s1) = SendOnly)); injection H as <-; auto.
Qed.

(** C7: after every successful [setDescription], the one run by the
    constructor included, the stored description maps the MID extension
    URI (to a single id, the table being keyed by URI) and [mSdesMidExtId]
    holds that id: an id [desc] already had is kept with the table
    unchanged, otherwise the lowest id of 1..14 the table does not use
    (there being one) is added in the same update that stores the
    description. *)
Theorem setDescription_sdes_mid_ext :
  (forall (t : Track) (desc : Media) (s : Track),
     setDescription desc t = Ok tt s -> sdes_mid_ext_ok desc s) /\
  (forall (init : Media) (limit : nat) (desc : Media) (s : Track),
     Track_new init limit desc = Ok tt s -> sdes_mid_ext_ok desc s).
Proof.
  split.
  - apply setDescription_ok.
  - intros init limit desc s H.
    destruct (Track_new_runs_setDescription init limit desc s H) as (s1 & Hs1 & [->| ->]);
      apply setDescription_ok in Hs1; [exact Hs1|].
    destruct Hs1 as (id & H1 & H2 & H3 & H4 & H5). exists id. auto.
Qed.

Lemma setDescription_sdes_mid_ext_witness :
  setDescription media_with_ext track_sendrecv =
    Ok tt (with_description media_with_ext (Some 3) track_sendrecv) /\
  sdes_mid_ext_ok media_with_ext (with_description media_with_ext (Some 3) track_sendrecv) /\
  Track_new (media_audio "0" SendRecv) 1500 media_ext_used =
    Ok tt (with_description (addExtMap media_ext_used 2 sdesMidExtUri) (Some 2)
             (initial_track (media_audio "0" SendRecv) 1500)) /\
  sdes_mid_ext_ok media_ext_used
    (with_description (addExtMap media_ext_used 2 sdesMidExtUri) (Some 2)
       (initial_track (media_audio "0" SendRecv) 1500)).
Proof.
  assert (H1 : setDescription media_with_ext track_sendrecv =
               Ok tt (with_description media_with_ext (Some 3) track_sendrecv))
    by reflexivity.
  assert (H2 : Track_new (media_audio "0" SendRecv) 1500 media_ext_used =
    Ok tt (with_description (addExtMap media_ext_used 2 sdesMidExtUri) (Some 2)
             (initial_track (media_audio "0" SendRecv) 1500))) by reflexivity.
  split; [exact H1|]. split; [exact (proj1 setDescription_sdes_mid_ext _ _ _ H1)|].
  split; [exact H2|]. exact (proj2 setDescription_sdes_mid_ext _ _ _ _ H2).
Defined.

(* ------------------------------------------------------------------ *)
(** ** maxMessageSize *)

(** C8, refuted: with a configured mtu of 0, [maxMessageSize()]
    is 2^64 - 60, not 0 - 60: the [size_t] subtraction wraps. *)
Lemma maxMessageSize_small_mtu_wraps :
  maxMessageSize 1280 (Some (mkConfiguration (Some 0))) = 2 ^ 64 - 60 /\
  maxMessageSize 1280 (Some (mkConfiguration (Some 0))) <> 0 - (12 + 8 + 40).
Proof. split; [reflexivity|]. unfold maxMessageSize, size_t_sub. simpl. discriminate. Qed.

(** C8, as the code has it: [maxMessageSize()] is the mtu used (the configured one
    when the peer connection's configuration has one, [DEFAULT_MTU]
    otherwise) minus 12 + 8 + 40 (RTP fixed header, UDP header, IPv6
    header) in [size_t] arithmetic, hence exactly that difference when
    the mtu used is at least 60. *)
Theorem maxMessageSize_spec (DEFAULT_MTU : Z) (pc : option Configuration) :
  0 <= mtu_used DEFAULT_MTU pc < 2 ^ 64 ->
  maxMessageSize DEFAULT_MTU pc = (mtu_used DEFAULT_MTU pc - (12 + 8 + 40)) mod 2 ^ 64 /\
  (12 + 8 + 40 <= mtu_used DEFAULT_MTU pc ->
   maxMessageSize DEFAULT_MTU pc = mtu_used DEFAULT_MTU pc - (12 + 8 + 40)) /\
  (forall m, pc = Some (mkConfiguration (Some m)) -> mtu_used DEFAULT_MTU pc = m) /\
  ((forall c, pc = Some c -> config_mtu c = None) -> mtu_used DEFAULT_MTU pc = DEFAULT_MTU).
Proof.
  intros Hr.
  assert (Hm : maxMessageSize DEFAULT_MTU pc = (mtu_used DEFAULT_MTU pc - (12 + 8 + 40)) mod 2 ^ 64).
  { unfold maxMessageSize, size_t_sub, mtu_used. cbv zeta.
    rewrite Zminus_mod_idemp_l, <- Z.sub_add_distr, Zminus_mod_idemp_l.
    apply (f_equal (fun x => x mod 2 ^ 64)). lia. }
  split; [exact Hm|]. split; [|split].
  - intros Hge. rewrite Hm. apply Z.mod_small. lia.
  - intros m ->. reflexivity.
  - intros Hn. unfold mtu_used. destruct pc as [c|]; [rewrite (Hn c eq_refl)|]; reflexivity.
Qed.

Lemma maxMessageSize_spec_witness :
  0 <= mtu_used 1280 (Some (mkConfiguration (Some 1500))) < 2 ^ 64 /\
  maxMessageSize 1280 (Some (mkConfiguration (Some 1500))) = 1440 /\
  maxMessageSize 1280 None = 1220.
Proof.
  assert (H1 : 0 <= mtu_used 1280 (Some (mkConfiguration (Some 1500))) < 2 ^ 64)
    by (split; cbv; [discriminate|reflexivity]).
  assert (H2 : 0 <= mtu_used 1280 None < 2 ^ 64) by (split; cbv; [discriminate|reflexivity]).
  split; [exact H1|]. split.
  - rewrite (proj1 (proj2 (maxMessageSize_spec 1280 _ H1)));
      [reflexivity|cbv; discriminate].
  - rewrite (proj1 (proj2 (maxMessageSize_spec 1280 None H2)));
      [reflexivity|cbv; discriminate].
Defined.

(* ------------------------------------------------------------------ *)
(** ** tagWithMid *)

(** A packet at least as long as the RTP fixed header is never modified. *)
Lemma tagWithMid_header_sized (IsRtcp : list Z -> bool) (t : Track) (msg : Message) :
  (sizeof_RtpHeader <= length (mbytes msg))%nat ->
  tagWithMid IsRtcp t msg = Some msg.
Proof.
  intros Hl. unfold tagWithMid.
  destruct (IsRtcp (mbytes msg)); [reflexivity|].
  destruct (mSdesMidExtId t); [|reflexivity].
  destruct (Nat.ltb (length (mbytes msg)) sizeof_RtpHeader) eqn:E; [|reflexivity].
  apply Nat.ltb_lt in E. lia.
Qed.

(** A packet with an extension block is longer than the fixed header. *)
Lemma has_extension_block_length (b : list Z) :
  has_extension_block b = true -> (sizeof_RtpHeader <= length b)%nat.
Proof.
  unfold has_extension_block, rtp_getSize, rtp_csrc_count, sizeof_RtpHeader.
  intros H. apply andb_true_iff in H as [_ H]. apply Nat.leb_le in H.
  destruct b as [|b0 rest]; simpl in *; [lia|].
  assert (0 <= Z.land b0 15) by (apply Z.land_nonneg; lia).
  assert (12 <= Z.to_nat (12 + 4 * Z.land b0 15))%nat by lia.
  lia.
Qed.

(** C9: [tagWithMid] returns the packet byte for byte unchanged when it is
    an RTCP (Control) buffer, when the track has no MID extension id, and
    when its extension block has a profile other than 0xBEDE. *)
Theorem tagWithMid_unchanged (IsRtcp : list Z -> bool) (t : Track) (msg : Message) :
  (IsRtcp (mbytes msg) = true -> tagWithMid IsRtcp t msg = Some msg) /\
  (mSdesMidExtId t = None -> tagWithMid IsRtcp t msg = Some msg) /\
  (has_extension_block (mbytes msg) = true -> ext_profile (mbytes msg) <> 0xBEDE ->
   tagWithMid IsRtcp t msg = Some msg).
Proof.
  split; [|split].
  - intros H. unfold tagWithMid. rewrite H. reflexivity.
  - intros H. unfold tagWithMid. rewrite H. destruct (IsRtcp (mbytes msg)); reflexivity.
  - intros He _. apply tagWithMid_header_sized, has_extension_block_length, He.
Qed.

Lemma tagWithMid_unchanged_witness :
  IsRtcp_rfc5761 (mbytes control_msg) = true /\
  tagWithMid IsRtcp_rfc5761 tagged_track control_msg = Some control_msg /\
  mSdesMidExtId track_sendrecv = None /\
  tagWithMid IsRtcp_rfc5761 track_sendrecv data_msg = Some data_msg /\
  has_extension_block (mbytes two_byte_ext_msg) = true /\
  ext_profile (mbytes two_byte_ext_msg) <> 0xBEDE /\
  tagWithMid IsRtcp_rfc5761 tagged_track two_byte_ext_msg = Some two_byte_ext_msg.
Proof.
  assert (Hp : ext_profile (mbytes two_byte_ext_msg) <> 0xBEDE) by (cbv; discriminate).
  split; [reflexivity|]. split.
  { apply (proj1 (tagWithMid_unchanged IsRtcp_rfc5761 tagged_track control_msg)).
    reflexivity. }
  split; [reflexivity|]. split.
  { apply (proj1 (proj2 (tagWithMid_unchanged IsRtcp_rfc5761 track_sendrecv data_msg))).
    reflexivity. }
  split; [reflexivity|]. split; [exact Hp|].
  apply (proj2 (proj2 (tagWithMid_unchanged IsRtcp_rfc5761 tagged_track two_byte_ext_msg)));
    [reflexivity|exact Hp].
Defined.

(** C1: on a track whose MID extension id is 1, [tagWithMid]
    leaves a 12-byte RTP Data packet with no extension block as it is (no
    extension bit, no 0xBEDE block), and leaves a packet with a one-element
    0xBEDE block as it is (no second element): the tagging branch is
    guarded by [message->size() < sizeof(RtpHeader)]. *)
Theorem tagWithMid_leaves_rtp_untagged :
  mSdesMidExtId tagged_track = Some 1 /\
  IsRtcp_rfc5761 (mbytes data_msg) = false /\
  rtp_extension (mbytes data_msg) = false /\
  tagWithMid IsRtcp_rfc5761 tagged_track data_msg = Some data_msg /\
  has_extension_block (mbytes bede_msg) = true /\
  ext_profile (mbytes bede_msg) = 0xBEDE /\
  tagWithMid IsRtcp_rfc5761 tagged_track bede_msg = Some bede_msg.
Proof. repeat split; reflexivity. Qed.

(* ------------------------------------------------------------------ *)
(** ** The default message callback of a send-only track *)

Lemma run_op_keeps_no_app_delivery IsRtcp o t :
  o <> OpOnMessage -> no_app_delivery t -> no_app_delivery (run_op IsRtcp o t).
Proof.
  intros Ho.
  set (P := no_app_delivery).
  assert (Hs : forall m t, P t -> P (add_sent m t)) by (unfold P, no_app_delivery; auto).
  assert (Hf : forall t, P t -> P (incr_queue_full t)) by (unfold P, no_app_delivery; auto).
  assert (Hq : forall q t, P t -> P (with_queue q t)) by (unfold P, no_app_delivery; auto).
  assert (He : forall n t, P t -> P (add_event (EvAvailable n) t))
    by (unfold P, no_app_delivery; auto).
  change (P t -> P (run_op IsRtcp o t)).
  destruct o; simpl.
  - revert t. change (preserves P (incoming m)). unfold incoming. frame.
    all: first [apply sendNow_preserves, Hs | apply admitBatch_preserves; auto].
  - revert t. change (preserves P (outgoing IsRtcp m)). unfold outgoing. frame.
    all: first [apply sendNow_preserves, Hs | apply sendBatch_preserves, Hs
               | apply transportSend_preserves, Hs].
  - revert t. change (preserves P close). unfold close. frame.
    all: unfold P, no_app_delivery in *; simpl in *; intuition congruence.
  - revert t. change (preserves P (setDescription d)). unfold setDescription. frame.
  - revert t. change (preserves P (setMediaHandler h)). unfold setMediaHandler. frame.
  - revert t. change (preserves P (open tr)). unfold open. frame.
  - revert t. change (preserves P receive). unfold receive. frame.
  - revert t. change (preserves P peek). unfold peek. frame.
  - revert t. change (preserves P deliverMessage). unfold deliverMessage, receive. frame.
    all: unfold P, no_app_delivery in *; simpl in *; intuition congruence.
  - contradiction.
Qed.

Lemma run_ops_keeps_no_app_delivery IsRtcp ops t :
  ~ In OpOnMessage ops -> no_app_delivery t -> no_app_delivery (run_ops IsRtcp ops t).
Proof.
  unfold run_ops. revert t. induction ops as [|o ops IH]; intros t Hn H; simpl.
  - exact H.
  - apply IH; [intros Hi; apply Hn; right; exact Hi|].
    apply run_op_keeps_no_app_delivery; [intros ->; apply Hn; left; reflexivity|exact H].
Qed.

Lemma run_op_keeps_discard IsRtcp o t :
  o <> OpOnMessage -> o <> OpClose ->
  messageCallback t = CbDiscard -> messageCallback (run_op IsRtcp o t) = CbDiscard.
Proof.
  intros Ho Hc.
  set (P := fun s : Track => messageCallback s = CbDiscard).
  assert (Hs : forall m t, P t -> P (add_sent m t)) by (unfold P; auto).
  assert (Hf : forall t, P t -> P (incr_queue_full t)) by (unfold P; auto).
  assert (Hq : forall q t, P t -> P (with_queue q t)) by (unfold P; auto).
  assert (He : forall n t, P t -> P (add_event (EvAvailable n) t)) by (unfold P; auto).
  change (P t -> P (run_op IsRtcp o t)).
  destruct o; simpl.
  - revert t. change (preserves P (incoming m)). unfold incoming. frame.
    all: first [apply sendNow_preserves, Hs | apply admitBatch_preserves; auto].
  - revert t. change (preserves P (outgoing IsRtcp m)). unfold outgoing. frame.
    all: first [apply sendNow_preserves, Hs | apply sendBatch_preserves, Hs
               | apply transportSend_preserves, Hs].
  - contradiction.
  - revert t. change (preserves P (setDescription d)). unfold setDescription. frame.
  - revert t. change (preserves P (setMediaHandler h)). unfold setMediaHandler. frame.
  - revert t. change (preserves P (open tr)). unfold open. frame.
  - revert t. change (preserves P receive). unfold receive. frame.
  - revert t. change (preserves P peek). unfold peek. frame.
  - revert t. change (preserves P deliverMessage). unfold deliverMessage, receive. frame.
  - contradiction.
Qed.

Lemma run_ops_keeps_discard IsRtcp ops t :
  ~ In OpOnMessage ops -> ~ In OpClose ops ->
  messageCallback t = CbDiscard -> messageCallback (run_ops IsRtcp ops t) = CbDiscard.
Proof.
  unfold run_ops. revert t. induction ops as [|o ops IH]; intros t Hn Hc H; simpl.
  - exact H.
  - apply IH; [intros Hi; apply Hn; right; exact Hi|intros Hi; apply Hc; right; exact Hi|].
    apply run_op_keeps_discard;
      [intros ->; apply Hn; left; reflexivity|intros ->; apply Hc; left; reflexivity|exact H].
Qed.

(** Delivery through the discarding callback takes the front message off
    the receive queue and shows it to nobody. *)
Lemma deliver_discard (t : Track) (m : Message) (rest : list Message) :
  messageCallback t = CbDiscard ->
  qitems (mRecvQueue t) = m :: rest ->
  exists t', deliverMessage t = Ok tt t' /\
    qitems (mRecvQueue t') = rest /\ deliveredLog t' = deliveredLog t.
Proof.
  intros Hcb Hq.
  unfold deliverMessage, receive, bind, get, modify, ret, queue_pop. rewrite Hcb, Hq.
  cbn. destruct (is_control m); eexists; split; try reflexivity; split; reflexivity.
Qed.

(** C10: a track constructed with a SendOnly description gets the
    discarding message callback [[](message_variant) {}].  Until the
    application registers its own callback, no message, Control packets
    admitted by [incoming] included, reaches the application through the
    callback, whatever operations run; and as long as the track is also
    not closed (close resets the callbacks) the discarding callback stays
    installed, so that each delivery of a pending message takes it off the
    receive queue and drops it silently. *)
Theorem sendonly_track_discards_messages (IsRtcp : list Z -> bool)
    (init : Media) (limit : nat) (desc : Media) (s : Track) :
  Track_new init limit desc = Ok tt s ->
  direction desc = SendOnly ->
  messageCallback s = CbDiscard /\
  (forall ops : list Op, ~ In OpOnMessage ops ->
     messageCallback (run_ops IsRtcp ops s) <> CbUser /\
     deliveredLog (run_ops IsRtcp ops s) = []) /\
  (forall ops : list Op, ~ In OpOnMessage ops -> ~ In OpClose ops ->
     messageCallback (run_ops IsRtcp ops s) = CbDiscard /\
     forall (m : Message) (rest : list Message),
       qitems (mRecvQueue (run_ops IsRtcp ops s)) = m :: rest ->
       exists u, deliverMessage (run_ops IsRtcp ops s) = Ok tt u /\
         qitems (mRecvQueue u) = rest /\ deliveredLog u = []).
Proof.
  intros Hn Hd.
  assert (Hcb : messageCallback s = CbDiscard).
  { revert Hn. unfold Track_new, bind at 1.
    destruct (setDescription desc (initial_track init limit)) as [u s1|e s1] eqn:Hs;
      [destruct u|discriminate].
    apply setDescription_ok in Hs. destruct Hs as (id & _ & _ & _ & Hdir & _).
    unfold description in Hdir. rewrite Hd in Hdir.
    unfold bind, get, modify. rewrite Hdir. simpl. intros H. injection H as <-. reflexivity. }
  assert (Hlog : forall ops : list Op, ~ In OpOnMessage ops ->
     messageCallback (run_ops IsRtcp ops s) <> CbUser /\
     deliveredLog (run_ops IsRtcp ops s) = []).
  { intros ops Hops. apply run_ops_keeps_no_app_delivery; [exact Hops|].
    split; [rewrite Hcb; discriminate|].
    destruct (Track_new_runs_setDescription init limit desc s Hn) as (s1 & Hs1 & Hor).
    assert (Hp : preserves (fun x => deliveredLog x = []) (setDescription desc))
      by (unfold setDescription; frame).
    pose proof (Hp (initial_track init limit) eq_refl) as Hp'.
    rewrite Hs1 in Hp'. simpl in Hp'.
    destruct Hor as [-> | ->]; exact Hp'. }
  split; [exact Hcb|]. split; [exact Hlog|].
  intros ops Hn' Hc'.
  assert (Hd' : messageCallback (run_ops IsRtcp ops s) = CbDiscard)
    by (apply run_ops_keeps_discard; assumption).
  split; [exact Hd'|].
  intros m rest Hq.
  destruct (deliver_discard _ m rest Hd' Hq) as (u & Hu & Hr & Hl).
  exists u. split; [exact Hu|split; [exact Hr|]].
  rewrite Hl. apply (Hlog ops Hn').
Qed.

Lemma sendonly_track_discards_messages_witness :
  Track_new (media_audio "0" SendOnly) 1500 (media_audio "0" SendOnly) =
    Ok tt (final_state (Track_new (media_audio "0" SendOnly) 1500 (media_audio "0" SendOnly))) /\
  direction (media_audio "0" SendOnly) = SendOnly /\
  exists u, deliverMessage (run_ops IsRtcp_rfc5761 [OpIncoming (Some control_msg)]
      (final_state (Track_new (media_audio "0" SendOnly) 1500 (media_audio "0" SendOnly)))) = Ok tt u /\
    qitems (mRecvQueue u) = [] /\ deliveredLog u = [].
Proof.
  assert (H : Track_new (media_audio "0" SendOnly) 1500 (media_audio "0" SendOnly) =
    Ok tt (final_state (Track_new (media_audio "0" SendOnly) 1500 (media_audio "0" SendOnly))))
    by reflexivity.
  split; [exact H|]. split; [reflexivity|].
  apply (proj2 (proj2 (proj2 (sendonly_track_discards_messages IsRtcp_rfc5761 _ _ _ _ H eq_refl))
           [OpIncoming (Some control_msg)] ltac:(simpl; intuition discriminate)
           ltac:(simpl; intuition discriminate)) control_msg []).
  vm_compute. reflexivity.
Defined.

(* ------------------------------------------------------------------ *)
(** ** Further properties of the track operations *)

Lemma transportSend_eq (t : Track) (m : Message) :
  transportSend m t =
  match mDtlsSrtpTransport t with
  | None => Err TrackClosed t
  | Some f => Ok (f (set_dscp (dscp_for t) m)) (add_sent (set_dscp (dscp_for t) m) t)
  end.
Proof.
  unfold transportSend, bind, get, modify, ret, throw, dscp_for.
  destruct (mDtlsSrtpTransport t); reflexivity.
Qed.

Lemma add_sent_all_transport ms t :
  mDtlsSrtpTransport (add_sent_all ms t) = mDtlsSrtpTransport t.
Proof. unfold add_sent_all. revert t; induction ms; intros t; simpl; [|rewrite IHms]; reflexivity. Qed.

Lemma add_sent_all_dscp ms t : dscp_for (add_sent_all ms t) = dscp_for t.
Proof. unfold add_sent_all. revert t; induction ms; intros t; simpl; [|rewrite IHms]; reflexivity. Qed.

Lemma add_sent_all_app l1 l2 t :
  add_sent_all (l1 ++ l2) t = add_sent_all l2 (add_sent_all l1 t).
Proof. unfold add_sent_all. apply fold_left_app. Qed.

Lemma sendNow_eq (ms : list Message) (t : Track) (f : Transport) :
  mDtlsSrtpTransport t = Some f ->
  sendNow ms t = Ok tt (add_sent_all (map (set_dscp (dscp_for t)) ms) t).
Proof.
  revert t. induction ms as [|m ms IH]; intros t Ht; [reflexivity|].
  simpl sendNow. unfold bind at 1. rewrite transportSend_eq, Ht.
  rewrite IH by exact Ht. reflexivity.
Qed.

Lemma fold_left_last {A B} (g : A -> B) (ms : list A) (r : B) :
  fold_left (fun _ m => g m) ms r = match rev ms with [] => r | m :: _ => g m end.
Proof.
  induction ms as [|m ms IH] using rev_ind; [reflexivity|].
  rewrite fold_left_app, rev_app_distr. reflexivity.
Qed.

Lemma sendBatch_eq (ms : list Message) (r : bool) (t : Track) (f : Transport) :
  mDtlsSrtpTransport t = Some f ->
  sendBatch ms r t =
  Ok (match rev ms with [] => r | m :: _ => f (set_dscp (dscp_for t) m) end)
     (add_sent_all (map (set_dscp (dscp_for t)) ms) t).
Proof.
  intros Ht. rewrite <- fold_left_last. revert t r Ht.
  induction ms as [|m ms IH]; intros t r Ht; [reflexivity|].
  simpl sendBatch. unfold bind at 1. rewrite transportSend_eq, Ht.
  rewrite IH by exact Ht. reflexivity.
Qed.

(** X1: without a media handler, [outgoing] on an open track with a live
    transport hands an RTCP buffer to the transport as a Control packet,
    whatever the track's direction, marked with the DSCP value of the
    track's media type (46 for audio, 36 otherwise), and returns what
    [sendMedia] returns. *)
Theorem outgoing_rtcp_bypasses_direction (IsRtcp : list Z -> bool) (t : Track)
    (msg : Message) (f : Transport) :
  mIsClosed t = false ->
  mMediaHandler t = None ->
  mDtlsSrtpTransport t = Some f ->
  IsRtcp (mbytes msg) = true ->
  outgoing IsRtcp msg t =
    Ok (f (set_dscp (dscp_for t) (set_mtype Control msg)))
       (add_sent (set_dscp (dscp_for t) (set_mtype Control msg)) t).
Proof.
  intros Hc Hh Htr Hr.
  unfold outgoing, bind at 1, get. rewrite Hc, Hh, Hr. cbn [is_control mtype set_mtype].
  rewrite andb_false_r. rewrite transportSend_eq, Htr. reflexivity.
Qed.

Lemma outgoing_rtcp_bypasses_direction_witness :
  outgoing IsRtcp_rfc5761 control_msg (with_transport (Some (fun _ => true)) track_recvonly) =
    Ok true (add_sent (set_dscp 46 (set_mtype Control control_msg))
                      (with_transport (Some (fun _ => true)) track_recvonly)).
Proof.
  exact (outgoing_rtcp_bypasses_direction IsRtcp_rfc5761
           (with_transport (Some (fun _ => true)) track_recvonly) control_msg
           (fun _ => true) eq_refl eq_refl eq_refl eq_refl).
Defined.

(** X2: without a media handler, a packet that passes the direction check
    on an open track whose transport is gone makes [outgoing] throw
    "Track is closed" with the track unchanged: nothing is sent and no
    counter moves. *)
Theorem outgoing_no_transport_throws (IsRtcp : list Z -> bool) (t : Track) (msg : Message) :
  mIsClosed t = false ->
  mMediaHandler t = None ->
  mDtlsSrtpTransport t = None ->
  is_recv_only_or_inactive (direction (mMediaDescription t)) &&
    negb (match outgoing_kind IsRtcp t msg with Control => true | Binary => false end) = false ->
  outgoing IsRtcp msg t = Err TrackClosed t.
Proof.
  intros Hc Hh Htr Hg. unfold outgoing_kind in Hg. rewrite Hh in Hg.
  unfold outgoing, bind at 1, get. rewrite Hc, Hh.
  destruct (IsRtcp (mbytes msg)); unfold is_control; cbn [mtype set_mtype] in *;
    rewrite Hg; rewrite transportSend_eq, Htr; reflexivity.
Qed.

Lemma outgoing_no_transport_throws_witness :
  outgoing IsRtcp_rfc5761 data_msg track_sendrecv = Err TrackClosed track_sendrecv.
Proof.
  exact (outgoing_no_transport_throws IsRtcp_rfc5761 track_sendrecv data_msg
           eq_refl eq_refl eq_refl eq_refl).
Defined.

(** X3: with a media handler, a packet that passes the direction check on
    an open track with a live transport goes through the outgoing chain;
    the packets the chain sends through its callback and then the packets
    of the resulting batch are handed to the transport in that order, all
    with the DSCP value of the track's media type, and [outgoing] returns
    the result of the last send of the batch, or false when the batch is
    empty. *)
Theorem outgoing_handler_last_result (IsRtcp : list Z -> bool) (t : Track) (msg : Message)
    (h : MediaHandler) (side batch : list Message) (f : Transport) :
  mIsClosed t = false ->
  mMediaHandler t = Some h ->
  outgoingChain h [msg] = (side, batch) ->
  mDtlsSrtpTransport t = Some f ->
  is_recv_only_or_inactive (direction (mMediaDescription t)) && negb (is_control msg) = false ->
  outgoing IsRtcp msg t =
    Ok (match rev batch with [] => false | m :: _ => f (set_dscp (dscp_for t) m) end)
       (add_sent_all (map (set_dscp (dscp_for t)) (side ++ batch)) t).
Proof.
  intros Hc Hh Hch Htr Hg.
  unfold outgoing, bind at 1, get. rewrite Hc, Hh. cbv zeta. rewrite Hg, Hch.
  unfold bind. rewrite (sendNow_eq side t f Htr).
  rewrite (sendBatch_eq batch false _ f) by (rewrite add_sent_all_transport; exact Htr).
  rewrite add_sent_all_dscp, map_app, add_sent_all_app. reflexivity.
Qed.

Lemma outgoing_handler_last_result_witness :
  outgoing IsRtcp_rfc5761 data_msg
    (with_transport (Some (fun _ => true)) (with_handler (Some echo_handler) track_sendrecv)) =
  Ok true (add_sent_all [set_dscp 46 data_msg; set_dscp 46 data_msg]
    (with_transport (Some (fun _ => true)) (with_handler (Some echo_handler) track_sendrecv))).
Proof.
  exact (outgoing_handler_last_result IsRtcp_rfc5761
    (with_transport (Some (fun _ => true)) (with_handler (Some echo_handler) track_sendrecv))
    data_msg echo_handler [data_msg] [data_msg] (fun _ => true)
    eq_refl eq_refl eq_refl eq_refl eq_refl).
Defined.

(** X4: when the outgoing chain of the media handler consumes the packet
    (it sends nothing through its callback and leaves an empty batch),
    [outgoing] on an open track returns false without touching the
    transport, whether or not one is attached: the track is unchanged, or
    only the bad-direction counter moves when the direction check drops
    the packet before the chain runs. *)
Theorem outgoing_consumed_returns_false (IsRtcp : list Z -> bool) (t : Track) (msg : Message)
    (h : MediaHandler) :
  mIsClosed t = false ->
  mMediaHandler t = Some h ->
  outgoingChain h [msg] = ([], []) ->
  outgoing IsRtcp msg t =
    Ok false (if is_recv_only_or_inactive (direction (mMediaDescription t)) &&
                 negb (is_control msg) then incr_bad_direction t else t).
Proof.
  intros Hc Hh Hch.
  unfold outgoing, bind at 1, get. rewrite Hc, Hh. cbv zeta.
  destruct (is_recv_only_or_inactive (direction (mMediaDescription t)) && negb (is_control msg)).
  - reflexivity.
  - rewrite Hch. reflexivity.
Qed.

Lemma outgoing_consumed_returns_false_witness :
  outgoing IsRtcp_rfc5761 data_msg (with_handler (Some sink_handler) track_sendrecv) =
    Ok false (with_handler (Some sink_handler) track_sendrecv).
Proof.
  exact (outgoing_consumed_returns_false IsRtcp_rfc5761
           (with_handler (Some sink_handler) track_sendrecv) data_msg sink_handler
           eq_refl eq_refl eq_refl).
Defined.

(** X5: with a media handler, a packet that passes the direction check
    goes through the incoming chain: the packets the chain sends through
    its callback are handed to the transport first (DSCP-marked), and then
    the chain's resulting batch, not the original packet, is what the
    admission loop queues. *)
Theorem incoming_handler_chain (t : Track) (msg : Message) (h : MediaHandler)
    (side batch : list Message) (f : Transport) :
  is_send_only_or_inactive (direction (mMediaDescription t)) && negb (is_control msg) = false ->
  mMediaHandler t = Some h ->
  incomingChain h [msg] = (side, batch) ->
  mDtlsSrtpTransport t = Some f ->
  incoming (Some msg) t = admitBatch batch (add_sent_all (map (set_dscp (dscp_for t)) side) t).
Proof.
  intros Hg Hh Hch Htr.
  unfold incoming, bind at 1, get. cbv zeta. rewrite Hg, Hh, Hch.
  unfold bind. rewrite (sendNow_eq side t f Htr). reflexivity.
Qed.

Lemma incoming_handler_chain_witness :
  incoming (Some data_msg)
    (with_transport (Some (fun _ => true)) (with_handler (Some relay_handler) track_sendrecv)) =
  admitBatch [control_msg] (add_sent_all [set_dscp 46 data_msg]
    (with_transport (Some (fun _ => true)) (with_handler (Some relay_handler) track_sendrecv))).
Proof.
  exact (incoming_handler_chain
    (with_transport (Some (fun _ => true)) (with_handler (Some relay_handler) track_sendrecv))
    data_msg relay_handler [data_msg] [control_msg] (fun _ => true)
    eq_refl eq_refl eq_refl eq_refl).
Defined.

(** X6: without a media handler, on a track whose direction lets packets
    in and whose receive queue is empty, two packets that fit the queue
    limit pass [incoming] one after the other, firing the available event
    with counts 1 and 2 and raising [availableAmount] by their sizes, and
    two [receive] calls return their contents in arrival order, leaving
    the queue empty with amount 0. *)
Theorem incoming_receive_fifo (t : Track) (m1 m2 : Message) :
  mMediaHandler t = None ->
  is_send_only_or_inactive (direction (mMediaDescription t)) = false ->
  qitems (mRecvQueue t) = [] ->
  qamount (mRecvQueue t) = 0%nat ->
  (message_size m1 < qlimit (mRecvQueue t))%nat ->
  (message_size m1 + message_size m2 <= qlimit (mRecvQueue t))%nat ->
  exists s1 s2 s3 s4,
    incoming (Some m1) t = Ok tt s1 /\
    incoming (Some m2) s1 = Ok tt s2 /\
    availableAmount s2 = (message_size m1 + message_size m2)%nat /\
    events s2 = events t ++ [EvAvailable 1; EvAvailable 2] /\
    receive s2 = Ok (Some (mbytes m1)) s3 /\
    receive s3 = Ok (Some (mbytes m2)) s4 /\
    availableAmount s4 = 0%nat /\
    qitems (mRecvQueue s4) = [].
Proof.
  intros Hh Hd Hi Ha H1 H2.
  destruct t as [d id c hd tr [items amt L] cb ev sl dl k1 k2]; cbn in *; subst hd items amt.
  assert (F1 : queue_full (mkQueue [] 0 L) = false)
    by (unfold queue_full; apply Nat.leb_gt; cbn; lia).
  assert (P1 : queue_push m1 (mkQueue [] 0 L) = (true, mkQueue [m1] (message_size m1) L))
    by (unfold queue_push; cbn [qlimit qamount qitems];
        destruct (Nat.ltb L (0 + message_size m1)) eqn:E; [apply Nat.ltb_lt in E; lia|reflexivity]).
  assert (F2 : queue_full (mkQueue [m1] (message_size m1) L) = false)
    by (unfold queue_full; apply Nat.leb_gt; cbn; lia).
  assert (P2 : queue_push m2 (mkQueue [m1] (message_size m1) L) =
               (true, mkQueue [m1; m2] (message_size m1 + message_size m2) L))
    by (unfold queue_push; cbn [qlimit qamount qitems];
        destruct (Nat.ltb L (message_size m1 + message_size m2)) eqn:E;
        [apply Nat.ltb_lt in E; lia|reflexivity]).
  do 4 eexists. split; [|split; [|split; [|split; [|split; [|split; [|split]]]]]].
  - unfold incoming, bind, get, modify, triggerAvailable, ret.
    cbn -[queue_push queue_full]. rewrite Hd. cbn -[queue_push queue_full].
    rewrite F1, P1. reflexivity.
  - unfold incoming, bind, get, modify, triggerAvailable, ret.
    cbn -[queue_push queue_full]. rewrite Hd. cbn -[queue_push queue_full].
    rewrite F2, P2. reflexivity.
  - reflexivity.
  - cbn. rewrite <- app_assoc. reflexivity.
  - unfold receive, bind, get, modify; cbn.
    destruct (is_control m1); reflexivity.
  - unfold receive, bind, get, modify; cbn.
    destruct (is_control m2); reflexivity.
  - cbn. unfold availableAmount, queue_amount; cbn. unfold message_size. lia.
  - reflexivity.
Qed.

Lemma incoming_receive_fifo_witness :
  exists s1 s2 s3 s4,
    incoming (Some data_msg) track_sendrecv = Ok tt s1 /\
    incoming (Some control_msg) s1 = Ok tt s2 /\
    availableAmount s2 = (message_size data_msg + message_size control_msg)%nat /\
    events s2 = events track_sendrecv ++ [EvAvailable 1; EvAvailable 2] /\
    receive s2 = Ok (Some (mbytes data_msg)) s3 /\
    receive s3 = Ok (Some (mbytes control_msg)) s4 /\
    availableAmount s4 = 0%nat /\
    qitems (mRecvQueue s4) = [].
Proof.
  apply (incoming_receive_fifo track_sendrecv data_msg control_msg);
    [reflexivity|reflexivity|reflexivity|reflexivity|vm_compute; lia|vm_compute; lia].
Defined.

(** X8: when the front of the receive queue is a Control packet, [peek]
    returns its content and leaves the track unchanged, and the following
    [receive] returns the same content and removes exactly that packet,
    lowering the queue's amount by its size. *)
Theorem peek_receive_control_front (t : Track) (m : Message) (rest : list Message) :
  qitems (mRecvQueue t) = m :: rest ->
  mtype m = Control ->
  peek t = Ok (Some (mbytes m)) t /\
  receive t = Ok (Some (mbytes m))
    (with_queue (mkQueue rest (qamount (mRecvQueue t) - message_size m) (qlimit (mRecvQueue t))) t).
Proof.
  intros Hq Hm. split.
  - unfold peek, bind, get, ret, queue_peek. rewrite Hq. cbn.
    unfold is_control. rewrite Hm. reflexivity.
  - unfold receive, bind, get, modify, ret, queue_pop. rewrite Hq. cbn.
    unfold is_control. rewrite Hm. reflexivity.
Qed.

Lemma peek_receive_control_front_witness :
  peek (with_queue (mkQueue [control_msg] 8 1500) track_sendrecv) =
    Ok (Some (mbytes control_msg)) (with_queue (mkQueue [control_msg] 8 1500) track_sendrecv) /\
  receive (with_queue (mkQueue [control_msg] 8 1500) track_sendrecv) =
    Ok (Some (mbytes control_msg))
      (with_queue (mkQueue [] 0 1500) (with_queue (mkQueue [control_msg] 8 1500) track_sendrecv)).
Proof.
  exact (peek_receive_control_front (with_queue (mkQueue [control_msg] 8 1500) track_sendrecv)
           control_msg [] eq_refl eq_refl).
Defined.

(** X9: [open(transport)] stores the transport on any track, closed or
    not; it fires the open event only on a track that is not closed, and
    afterwards [isOpen()] holds exactly when the track is not closed and
    the transport given is present. *)
Theorem open_then_isOpen (tr : option Transport) (t : Track) :
  mDtlsSrtpTransport (final_state (open tr t)) = tr /\
  events (final_state (open tr t)) = events t ++ (if mIsClosed t then [] else [EvOpen]) /\
  isClosed (final_state (open tr t)) = isClosed t /\
  isOpen (final_state (open tr t)) =
    negb (mIsClosed t) && match tr with Some _ => true | None => false end.
Proof.
  unfold open, bind, get, modify, ret, isClosed, isOpen. cbn.
  destruct (mIsClosed t) eqn:Hc; cbn; rewrite ?app_nil_r, ?Hc; auto.
Qed.

Lemma close_fields (t : Track) :
  mIsClosed (final_state (close t)) = true /\
  mMediaHandler (final_state (close t)) = None /\
  messageCallback (final_state (close t)) = CbUnset /\
  mRecvQueue (final_state (close t)) = mRecvQueue t /\
  mMediaDescription (final_state (close t)) = mMediaDescription t.
Proof.
  destruct (mIsClosed t) eqn:Hc;
    [rewrite close_closed_track by exact Hc; cbn; rewrite Hc
    |rewrite close_open_track by exact Hc]; cbn; auto.
Qed.

(** X10: once [close()] has run, whatever operations follow ([open] with a
    live transport included), [isClosed()] stays true, [isOpen()] stays
    false and [outgoing] throws "Track is closed" without changing the
    track. *)
Theorem closed_for_good (IsRtcp : list Z -> bool) (t : Track) (ops : list Op) (msg : Message) :
  isClosed (run_ops IsRtcp ops (final_state (close t))) = true /\
  isOpen (run_ops IsRtcp ops (final_state (close t))) = false /\
  outgoing IsRtcp msg (run_ops IsRtcp ops (final_state (close t))) =
    Err TrackClosed (run_ops IsRtcp ops (final_state (close t))).
Proof.
  pose proof (run_ops_keeps_closed IsRtcp ops _ (proj1 (close_fields t))) as Hc.
  unfold isClosed, isOpen. rewrite Hc. split; [reflexivity|split; [reflexivity|]].
  unfold outgoing, bind at 1, get. rewrite Hc. reflexivity.
Qed.

(** X12: [incoming] does not look at the closed flag: after [close()], a
    packet that passes the direction check and fits the receive queue is
    still queued (the handler [close] detached plays no part), the queue's
    amount rising by its size, and the track stays closed. *)
Theorem incoming_after_close_queues (t : Track) (m : Message) :
  is_send_only_or_inactive (direction (mMediaDescription t)) && negb (is_control m) = false ->
  queue_full (mRecvQueue t) = false ->
  (qamount (mRecvQueue t) + message_size m <= qlimit (mRecvQueue t))%nat ->
  exists s,
    incoming (Some m) (final_state (close t)) = Ok tt s /\
    isClosed s = true /\
    qitems (mRecvQueue s) = qitems (mRecvQueue t) ++ [m] /\
    availableAmount s = (availableAmount t + message_size m)%nat.
Proof.
  intros Hg Hf Hs.
  destruct (close_fields t) as (Hc & Hh & _ & Hq & Hd).
  set (s0 := final_state (close t)) in *. clearbody s0.
  assert (Hp : queue_push m (mRecvQueue t) =
      (true, mkQueue (qitems (mRecvQueue t) ++ [m]) (qamount (mRecvQueue t) + message_size m)
                     (qlimit (mRecvQueue t)))).
  { unfold queue_push.
    destruct (Nat.ltb (qlimit (mRecvQueue t)) (qamount (mRecvQueue t) + message_size m)) eqn:E;
      [apply Nat.ltb_lt in E; lia|reflexivity]. }
  eexists. split.
  - unfold incoming, bind, get, modify, triggerAvailable, ret.
    rewrite Hd, Hg, Hh. cbn -[queue_push queue_full]. rewrite Hq, Hf, Hp. reflexivity.
  - cbn. unfold isClosed, availableAmount, queue_amount. cbn.
    split; [exact Hc|split; reflexivity].
Qed.

Lemma incoming_after_close_queues_witness :
  exists s,
    incoming (Some data_msg) (final_state (close track_sendrecv)) = Ok tt s /\
    isClosed s = true /\
    qitems (mRecvQueue s) = qitems (mRecvQueue track_sendrecv) ++ [data_msg] /\
    availableAmount s = (availableAmount track_sendrecv + message_size data_msg)%nat.
Proof.
  apply (incoming_after_close_queues track_sendrecv data_msg);
    [reflexivity|reflexivity|vm_compute; lia].
Defined.

Lemma run_op_keeps_mid (IsRtcp : list Z -> bool) (o : Op) (t : Track) (m0 : string) :
  mid (mMediaDescription t) = m0 -> mid (mMediaDescription (run_op IsRtcp o t)) = m0.
Proof.
  set (P := fun s : Track => mid (mMediaDescription s) = m0).
  assert (Hs : forall m t, P t -> P (add_sent m t)) by (unfold P; auto).
  assert (Hf : forall t, P t -> P (incr_queue_full t)) by (unfold P; auto).
  assert (Hq : forall q t, P t -> P (with_queue q t)) by (unfold P; auto).
  assert (He : forall n t, P t -> P (add_event (EvAvailable n) t)) by (unfold P; auto).
  change (P t -> P (run_op IsRtcp o t)).
  destruct o; simpl.
  - revert t. change (preserves P (incoming m)). unfold incoming. frame.
    all: first [apply sendNow_preserves, Hs | apply admitBatch_preserves; auto].
  - revert t. change (preserves P (outgoing IsRtcp m)). unfold outgoing. frame.
    all: first [apply sendNow_preserves, Hs | apply sendBatch_preserves, Hs
               | apply transportSend_preserves, Hs].
  - revert t. change (preserves P close). unfold close. frame.
  - revert t. change (preserves P (setDescription d)). unfold setDescription. frame.
    all: unfold P in *; destruct (findExtId d sdesMidExtUri) in *; injection Heqp as <- <-; simpl; congruence.
  - revert t. change (preserves P (setMediaHandler h)). unfold setMediaHandler. frame.
  - revert t. change (preserves P (open tr)). unfold open. frame.
  - revert t. change (preserves P receive). unfold receive. frame.
  - revert t. change (preserves P peek). unfold peek. frame.
  - revert t. change (preserves P deliverMessage). unfold deliverMessage, receive. frame.
  - revert t. change (preserves P onMessage). unfold onMessage. frame.
Qed.

(** X13: no sequence of operations changes the track's mid: [mid()]
    returns the mid the track started with, since [setDescription]
    installs only descriptions with that mid. *)
Theorem mid_invariant (IsRtcp : list Z -> bool) (ops : list Op) (t : Track) :
  mid (description (run_ops IsRtcp ops t)) = mid (description t).
Proof.
  unfold description, run_ops. revert t. induction ops as [|o ops IH]; intros t; [reflexivity|].
  cbn [fold_left]. rewrite IH. apply run_op_keeps_mid. reflexivity.
Qed.
